(** * kubectl-rook-ceph: the debug workflow of [pkg/debug/start_debug.go]

    A shallow embedding of [startDebug] and its helpers.  The Kubernetes
    API server is an external collaborator: it is a type class of calls on
    an abstract cluster state, every run is a function from cluster states
    to a result, a final cluster state and the list of calls it issued. *)

From stdpp Require Import base strings list gmap.

Local Open Scope string_scope.
Local Open Scope list_scope.

(** ** Data model: the Kubernetes objects the workflow reads and writes *)

(** [metav1.ObjectMeta]: a Go map is [nil] or a map; reading a nil map
    yields the zero value, writing to it panics. *)
Record ObjectMeta := {
  Name : string;
  Namespace : string;
  Labels : option (gmap string string)
}.

(** [corev1.Probe]: what a probe runs is immaterial here, only whether
    the pointer is nil. *)
Record Probe := { PeriodSeconds : Z }.

(** [corev1.Container] with its three probe pointers. *)
Record Container := {
  ContainerName : string;
  Image : string;
  Command : list string;
  Args : list string;
  LivenessProbe : option Probe;
  ReadinessProbe : option Probe;
  StartupProbe : option Probe
}.

Record PodSpec := { Containers : list Container }.

Record PodTemplateSpec := {
  TemplateMeta : ObjectMeta;
  TemplateSpec : PodSpec
}.

(** [appsv1.DeploymentSpec]: [Replicas] is an [*int32]. *)
Record DeploymentSpec := {
  Replicas : option Z;
  Template : PodTemplateSpec
}.

Record Deployment := {
  DeploymentMeta : ObjectMeta;
  Spec : DeploymentSpec
}.

Inductive PodPhase := PodPending | PodRunning | PodSucceeded | PodFailed | PodUnknown.

Record Pod := {
  PodMeta : ObjectMeta;
  Phase : PodPhase
}.

(** [autoscalingv1.Scale] *)
Record Scale := {
  ScaleMeta : ObjectMeta;
  ScaleReplicas : Z
}.

Global Instance PodPhase_eq_dec : EqDecision PodPhase.
Proof. solve_decision. Defined.

(** Field assignments [x.f = v] as functional updates. *)
Definition set_Image (v : string) (c : Container) : Container :=
  {| ContainerName := ContainerName c; Image := v; Command := Command c;
     Args := Args c; LivenessProbe := LivenessProbe c;
     ReadinessProbe := ReadinessProbe c; StartupProbe := StartupProbe c |}.

Definition set_Command (v : list string) (c : Container) : Container :=
  {| ContainerName := ContainerName c; Image := Image c; Command := v;
     Args := Args c; LivenessProbe := LivenessProbe c;
     ReadinessProbe := ReadinessProbe c; StartupProbe := StartupProbe c |}.

Definition set_Args (v : list string) (c : Container) : Container :=
  {| ContainerName := ContainerName c; Image := Image c; Command := Command c;
     Args := v; LivenessProbe := LivenessProbe c;
     ReadinessProbe := ReadinessProbe c; StartupProbe := StartupProbe c |}.

Definition set_LivenessProbe (v : option Probe) (c : Container) : Container :=
  {| ContainerName := ContainerName c; Image := Image c; Command := Command c;
     Args := Args c; LivenessProbe := v;
     ReadinessProbe := ReadinessProbe c; StartupProbe := StartupProbe c |}.

Definition set_StartupProbe (v : option Probe) (c : Container) : Container :=
  {| ContainerName := ContainerName c; Image := Image c; Command := Command c;
     Args := Args c; LivenessProbe := LivenessProbe c;
     ReadinessProbe := ReadinessProbe c; StartupProbe := v |}.

Definition set_Labels (v : option (gmap string string)) (m : ObjectMeta) : ObjectMeta :=
  {| Name := Name m; Namespace := Namespace m; Labels := v |}.

Definition containers (d : Deployment) : list Container :=
  Containers (TemplateSpec (Template (Spec d))).

Definition set_containers (cs : list Container) (d : Deployment) : Deployment :=
  {| DeploymentMeta := DeploymentMeta d;
     Spec := {| Replicas := Replicas (Spec d);
                Template := {| TemplateMeta := TemplateMeta (Template (Spec d));
                               TemplateSpec := {| Containers := cs |} |} |} |}.

Definition set_DeploymentLabels (v : option (gmap string string)) (d : Deployment) : Deployment :=
  {| DeploymentMeta := set_Labels v (DeploymentMeta d); Spec := Spec d |}.

(** [m[k]] on a [map[string]string] that may be nil: the zero value
    when the key is absent. *)
Definition index_label (m : option (gmap string string)) (k : string) : string :=
  match m with
  | Some m => default "" (m !! k)
  | None => ""
  end.

(** ** Errors *)

Inductive StatusReason :=
  StatusReasonNotFound | StatusReasonAlreadyExists | StatusReasonUnknown.

(** A Go [error] value: either a plain message ([fmt.Errorf] without
    [%w], a transport failure), or an API status carrying a reason. *)
Inductive error :=
| errorString (msg : string)
| StatusError (reason : StatusReason) (msg : string).

Definition Error (e : error) : string :=
  match e with
  | errorString msg => msg
  | StatusError _ msg => msg
  end.

(** [kerrors.IsNotFound]: false on a nil error and on any error that is
    not a not-found status. *)
Definition IsNotFound (err : option error) : bool :=
  match err with
  | Some (StatusError StatusReasonNotFound _) => true
  | _ => false
  end.

(** The error half of a Go [(value, error)] result. *)
Definition err_of {A} (r : A + error) : option error :=
  match r with
  | inl _ => None
  | inr e => Some e
  end.

(** [int32(n)] on a Go [int]: two's complement truncation. *)
Definition int32 (n : Z) : Z := ((n + 2147483648) `mod` 4294967296 - 2147483648)%Z.

(** [time.Second] as a [time.Duration], in nanoseconds. *)
Definition Second : Z := 1000000000%Z.

(** ** The API client and what a run leaves behind *)

(** The calls of [kubernetes.Interface] the workflow uses, as state
    transformers on a cluster state [W]; [time_sleep] is the cluster
    moving on while the caller sleeps. *)
Class Interface (W : Type) := {
  deployments_get : string → string → W → (Deployment + error) * W;
  deployments_create : string → Deployment → W → (Deployment + error) * W;
  deployments_update_scale : string → string → Scale → W → (Scale + error) * W;
  pods_get : string → string → W → (Pod + error) * W;
  pods_list : string → string → W → (list Pod + error) * W;
  time_sleep : Z → W → W
}.

(** What a run has done, in order: API calls with their answers, sleeps,
    and [logging.Info] calls with their format and arguments. *)
Inductive event :=
| DeploymentsGet (ns name : string) (r : Deployment + error)
| DeploymentsCreate (ns : string) (obj : Deployment) (r : Deployment + error)
| DeploymentsUpdateScale (ns name : string) (scale : Scale) (r : Scale + error)
| PodsGet (ns name : string) (r : Pod + error)
| PodsList (ns selector : string) (r : list Pod + error)
| Sleep (d : Z)
| Info (format : string) (args : list string).

(** How control leaves a Go function: a normal return, a runtime panic,
    or [logging.Fatal] ending the process. *)
Inductive control (A : Type) :=
| Done (a : A)
| Panic (why : string)
| Exit (e : error).
Arguments Done {A} a.
Arguments Panic {A} why.
Arguments Exit {A} e.

Definition Run (W A : Type) : Type := W → control A * W * list event.

Definition ret {W A} (a : A) : Run W A := λ w, (Done a, w, []).

Definition bind {W A B} (m : Run W A) (k : A → Run W B) : Run W B :=
  λ w, match m w with
       | (Done a, w1, t1) =>
           match k a w1 with
           | (c, w2, t2) => (c, w2, t1 ++ t2)
           end
       | (Panic why, w1, t1) => (Panic why, w1, t1)
       | (Exit e, w1, t1) => (Exit e, w1, t1)
       end.

Notation "'let*' x ':=' m 'in' k" := (bind m (λ x, k))
  (at level 10, x pattern, m at level 100, k at level 200, only parsing).

Definition panic {W A} (why : string) : Run W A := λ w, (Panic why, w, []).
Definition Fatal {W A} (e : error) : Run W A := λ w, (Exit e, w, []).
Definition emit {W} (e : event) : Run W unit := λ w, (Done tt, w, [e]).
Definition logInfo {W} (format : string) (args : list string) : Run W unit :=
  emit (Info format args).

Section Client.
Context {W : Type} `{!Interface W}.

Definition Deployments_Get (ns name : string) : Run W (Deployment + error) :=
  λ w, let '(r, w1) := deployments_get ns name w in
       (Done r, w1, [DeploymentsGet ns name r]).

Definition Deployments_Create (ns : string) (obj : Deployment) : Run W (Deployment + error) :=
  λ w, let '(r, w1) := deployments_create ns obj w in
       (Done r, w1, [DeploymentsCreate ns obj r]).

Definition Deployments_UpdateScale (ns name : string) (s : Scale) : Run W (Scale + error) :=
  λ w, let '(r, w1) := deployments_update_scale ns name s w in
       (Done r, w1, [DeploymentsUpdateScale ns name s r]).

Definition Pods_Get (ns name : string) : Run W (Pod + error) :=
  λ w, let '(r, w1) := pods_get ns name w in
       (Done r, w1, [PodsGet ns name r]).

Definition Pods_List (ns selector : string) : Run W (list Pod + error) :=
  λ w, let '(r, w1) := pods_list ns selector w in
       (Done r, w1, [PodsList ns selector r]).

Definition time_Sleep (d : Z) : Run W unit :=
  λ w, (Done tt, time_sleep d w, [Sleep d]).

End Client.

(** ** The helpers and the workflow *)

(** The line feed a Go literal spells as a backslash and an n. *)
Definition LF : string := String (Ascii.ascii_of_nat 10) EmptyString.

Section Debug.
Context {W : Type} `{!Interface W}.

(** [%s] on a [*appsv1.Deployment] prints through the generated
    [String] method of the API types, which is not part of this
    repository. *)
Variable Deployment_String : Deployment → string.

(** The retry budget and the pause of [k8sutil.WaitForPodToRun]. *)
Variable runRetries : nat.
Variable runInterval : Z.

Definition isRunning (p : Pod) : bool := bool_decide (Phase p = PodRunning).

(** Modelled from the spec: [k8sutil.WaitForPodToRun] lives in
    [pkg/k8sutil], which is not among the sources.  Spec 4.1: it
    queries the API by label selector, a fixed number of times at a
    fixed interval, until a pod matching the selector reports the
    Running phase; exhausting the budget is an error with the target
    embedded.  The budget and the interval are not given for this
    variant and stay parameters; a failed query counts as one more
    unsuccessful attempt. *)
Fixpoint WaitForPodToRun_from (remaining : nat) (ns labelSelector : string)
  : Run W (Pod + error) :=
  match remaining with
  | O => ret (inr (errorString ("no pod with labels matching " +:+ labelSelector)))
  | S n =>
      let* r := Pods_List ns labelSelector in
      match r with
      | inl pods =>
          match List.find isRunning pods with
          | Some pod => ret (inl pod)
          | None =>
              let* _ := time_Sleep runInterval in
              WaitForPodToRun_from n ns labelSelector
          end
      | inr _ =>
          let* _ := time_Sleep runInterval in
          WaitForPodToRun_from n ns labelSelector
      end
  end.

Definition WaitForPodToRun (ns labelSelector : string) : Run W (Pod + error) :=
  WaitForPodToRun_from runRetries ns labelSelector.

(** [SetDeploymentScale], lines 111-126. *)
Definition SetDeploymentScale (clusterNamespace deploymentName : string) (scaleCount : Z)
  : Run W (option error) :=
  let scale :=
    {| ScaleMeta := {| Name := deploymentName; Namespace := clusterNamespace; Labels := None |};
       ScaleReplicas := int32 scaleCount |} in
  let* r := Deployments_UpdateScale clusterNamespace deploymentName scale in
  match r with
  | inr err =>
      ret (Some (errorString ("failed to update scale of deployment " +:+ deploymentName
                              +:+ ". " +:+ Error err +:+ LF)))
  | inl _ => ret None
  end.

(** [GetDeployment], lines 128-137.  Formats of [logging.Info] are
    recorded as the source spells them. *)
Definition GetDeployment (clusterNamespace deploymentName : string)
  : Run W (Deployment + error) :=
  let* _ := logInfo "fetching the deployment %s to be running\n" [deploymentName] in
  let* r := Deployments_Get clusterNamespace deploymentName in
  match r with
  | inr err => ret (inr err)
  | inl deployment =>
      let* _ := logInfo "deployment %s exists\n" [deploymentName] in
      ret (inl deployment)
  end.

(** [waitForPodDeletion], lines 139-151: the loop with [remaining]
    iterations left, that is [i = 60 - remaining]. *)
Fixpoint waitForPodDeletion_from (remaining : nat) (clusterNamespace podName : string)
  : Run W (option error) :=
  match remaining with
  | O => ret (Some (errorString ("failed to delete pod " +:+ podName)))
  | S n =>
      let* r := Pods_Get clusterNamespace podName in
      if IsNotFound (err_of r) then ret None
      else
        let* _ := logInfo "waiting for pod %q to be deleted\n" [podName] in
        let* _ := time_Sleep (Second * 5) in
        waitForPodDeletion_from n clusterNamespace podName
  end.

Definition waitForPodDeletion (clusterNamespace podName : string) : Run W (option error) :=
  waitForPodDeletion_from 60 clusterNamespace podName.

(** [deployment.Spec.Template.Spec.Containers[0].f = v]: indexing an
    empty slice panics. *)
Definition assign_Containers0 (f : Container → Container) (d : Deployment)
  : Run W Deployment :=
  match containers d !! 0%nat with
  | Some c => ret (set_containers (<[0%nat := f c]> (containers d)) d)
  | None => panic "index out of range [0] with length 0"
  end.

(** [labels := deployment.Labels; labels[k] = v]: [labels] aliases the
    deployment's map, so the write shows in both; writing to a nil map
    panics. *)
Definition assign_Labels (k v : string) (d : Deployment)
  : Run W (gmap string string * Deployment) :=
  match Labels (DeploymentMeta d) with
  | Some m =>
      let labels := <[k := v]> m in
      ret (labels, set_DeploymentLabels (Some labels) d)
  | None => panic "assignment to entry in nil map"
  end.

(** Lines 49-63: the in-memory mutation of the dereferenced copy.  The
    copy is shallow (the container slice and the label map are shared
    with [originalDeployment]), but the original is not read again. *)
Definition mutateDeployment (alternateImageValue : string) (originalDeployment : Deployment)
  : Run W (gmap string string * Deployment) :=
  let deployment := originalDeployment in
  let* deployment :=
    (if bool_decide (alternateImageValue ≠ "") then
       let* _ := logInfo "setting debug image to %s\n" [alternateImageValue] in
       assign_Containers0 (set_Image alternateImageValue) deployment
     else ret deployment) in
  let* (labels, deployment) :=
    assign_Labels "ceph.rook.io/do-not-reconcile" "true" deployment in
  let* deployment := assign_Containers0 (set_LivenessProbe None) deployment in
  let* deployment := assign_Containers0 (set_StartupProbe None) deployment in
  let* _ := logInfo "setting debug command to main container" [] in
  let* deployment := assign_Containers0 (set_Command ["sleep"; "infinity"]) deployment in
  let* deployment := assign_Containers0 (set_Args []) deployment in
  ret (labels, deployment).

(** Line 65. *)
Definition labelSelector_of (deployment : Deployment) : string :=
  "ceph_daemon_type="
  +:+ index_label (Labels (TemplateMeta (Template (Spec deployment)))) "ceph_daemon_type"
  +:+ ",ceph_daemon_id="
  +:+ index_label (Labels (TemplateMeta (Template (Spec deployment)))) "ceph_daemon_id".

(** Lines 83-90. *)
Definition debugDeploymentSpec_of (clusterNamespace deploymentName : string)
  (labels : gmap string string) (deployment : Deployment) : Deployment :=
  {| DeploymentMeta := {| Name := deploymentName +:+ "-debug";
                          Namespace := clusterNamespace;
                          Labels := Some labels |};
     Spec := Spec deployment |}.

(** [startDebug], lines 40-109. *)
Definition startDebug (clusterNamespace deploymentName alternateImageValue : string)
  : Run W (option error) :=
  let* r := GetDeployment clusterNamespace deploymentName in
  match r with
  | inr err =>
      ret (Some (errorString ("Missing mon or osd deployment name " +:+ deploymentName
                              +:+ ". " +:+ Error err +:+ LF)))
  | inl originalDeployment =>
      let* (labels, deployment) := mutateDeployment alternateImageValue originalDeployment in
      let labelSelector := labelSelector_of deployment in
      let* r := WaitForPodToRun clusterNamespace labelSelector in
      match r with
      | inr err => ret (Some err)
      | inl deploymentPodName =>
          let* err := SetDeploymentScale clusterNamespace (Name (DeploymentMeta deployment)) 0 in
          match err with
          | Some err => ret (Some err)
          | None =>
              let* _ := logInfo "deployment %s scaled down\n" [Name (DeploymentMeta deployment)] in
              let* _ := logInfo "waiting for the deployment pod %s to be deleted\n"
                          [Name (PodMeta deploymentPodName)] in
              let* err := waitForPodDeletion clusterNamespace deploymentName in
              match err with
              | Some err => ret (Some err)
              | None =>
                  let debugDeploymentSpec :=
                    debugDeploymentSpec_of clusterNamespace deploymentName labels deployment in
                  let* r := Deployments_Create clusterNamespace debugDeploymentSpec in
                  match r with
                  | inr err =>
                      ret (Some (errorString ("Error creating deployment "
                                              +:+ Deployment_String debugDeploymentSpec
                                              +:+ ". " +:+ Error err +:+ LF)))
                  | inl debugDeployment =>
                      let* _ := logInfo "ensure the debug deployment %s is scaled up\n"
                                  [deploymentName] in
                      let* err := SetDeploymentScale clusterNamespace
                                    (Name (DeploymentMeta debugDeployment)) 1 in
                      match err with
                      | Some err => ret (Some err)
                      | None =>
                          let* r := WaitForPodToRun clusterNamespace labelSelector in
                          match r with
                          | inr err => Fatal err
                          | inl pod =>
                              let* _ := logInfo "pod %s is ready for debugging"
                                          [Name (PodMeta pod)] in
                              ret None
                          end
                      end
                  end
              end
          end
      end
  end.

(** [StartDebug], lines 33-38. *)
Definition StartDebug (clusterNamespace deploymentName alternateImageValue : string)
  : Run W unit :=
  let* err := startDebug clusterNamespace deploymentName alternateImageValue in
  match err with
  | Some err => Fatal err
  | None => ret tt
  end.

End Debug.

(** ** The deletion wait, attempt by attempt *)

Section Attempts.
Context {W : Type} `{!Interface W}.

(** The cluster state after [k] unsuccessful attempts of the deletion
    wait: each attempt is a get followed by a pause of 5 s. *)
Fixpoint after_attempts (k : nat) (ns podName : string) (w : W) : W :=
  match k with
  | O => w
  | S k => after_attempts k ns podName (time_sleep (Second * 5) (pods_get ns podName w).2)
  end.

End Attempts.

(** ** An in-memory API server

    A test double in the manner of client-go's fake clientset: it stores
    the objects it is given and runs no controllers, so pods neither
    start nor stop on their own.  It is used to run the workflow on
    concrete clusters; the theorems below hold for every [Interface]. *)
Module Fake.

Record Cluster := {
  clusterDeployments : list Deployment;
  clusterPods : list Pod;
  clock : Z
}.

Definition named (ns name : string) (m : ObjectMeta) : bool :=
  bool_decide (Namespace m = ns) && bool_decide (Name m = name).

Definition notFound (kind name : string) : error :=
  StatusError StatusReasonNotFound (kind +:+ " " +:+ name +:+ " not found").

Definition alreadyExists (kind name : string) : error :=
  StatusError StatusReasonAlreadyExists (kind +:+ " " +:+ name +:+ " already exists").

Definition get_deployment (ns name : string) (c : Cluster) : (Deployment + error) * Cluster :=
  match List.find (λ d, named ns name (DeploymentMeta d)) (clusterDeployments c) with
  | Some d => (inl d, c)
  | None => (inr (notFound "deployments.apps" name), c)
  end.

Definition create_deployment (ns : string) (obj : Deployment) (c : Cluster)
  : (Deployment + error) * Cluster :=
  match List.find (λ d, named ns (Name (DeploymentMeta obj)) (DeploymentMeta d))
          (clusterDeployments c) with
  | Some _ => (inr (alreadyExists "deployments.apps" (Name (DeploymentMeta obj))), c)
  | None =>
      (inl obj, {| clusterDeployments := clusterDeployments c ++ [obj];
                   clusterPods := clusterPods c; clock := clock c |})
  end.

Definition set_Replicas (n : Z) (d : Deployment) : Deployment :=
  {| DeploymentMeta := DeploymentMeta d;
     Spec := {| Replicas := Some n; Template := Template (Spec d) |} |}.

Definition update_scale (ns name : string) (s : Scale) (c : Cluster)
  : (Scale + error) * Cluster :=
  match List.find (λ d, named ns name (DeploymentMeta d)) (clusterDeployments c) with
  | Some _ =>
      (inl s,
       {| clusterDeployments :=
            map (λ d, if named ns name (DeploymentMeta d)
                      then set_Replicas (ScaleReplicas s) d else d)
                (clusterDeployments c);
          clusterPods := clusterPods c; clock := clock c |})
  | None => (inr (notFound "deployments.apps" name), c)
  end.

Definition get_pod (ns name : string) (c : Cluster) : (Pod + error) * Cluster :=
  match List.find (λ p, named ns name (PodMeta p)) (clusterPods c) with
  | Some p => (inl p, c)
  | None => (inr (notFound "pods" name), c)
  end.

(** Selectors of the one shape the workflow builds. *)
Definition matches (selector : string) (p : Pod) : bool :=
  bool_decide (selector =
    "ceph_daemon_type=" +:+ index_label (Labels (PodMeta p)) "ceph_daemon_type"
    +:+ ",ceph_daemon_id=" +:+ index_label (Labels (PodMeta p)) "ceph_daemon_id").

Definition list_pods (ns selector : string) (c : Cluster) : (list Pod + error) * Cluster :=
  (inl (List.filter (λ p, bool_decide (Namespace (PodMeta p) = ns) && matches selector p)
          (clusterPods c)), c).

Definition sleep (d : Z) (c : Cluster) : Cluster :=
  {| clusterDeployments := clusterDeployments c;
     clusterPods := clusterPods c; clock := (clock c + d)%Z |}.

#[global] Instance clientset : Interface Cluster := {|
  deployments_get := get_deployment;
  deployments_create := create_deployment;
  deployments_update_scale := update_scale;
  pods_get := get_pod;
  pods_list := list_pods;
  time_sleep := sleep
|}.

(** A monitor deployment of a Rook cluster and its one pod. *)
Definition monLabels : gmap string string :=
  {[ "ceph_daemon_type" := "mon"; "ceph_daemon_id" := "a" ]}.

Definition monContainer : Container :=
  {| ContainerName := "mon"; Image := "quay.io/ceph/ceph:v17";
     Command := ["ceph-mon"]; Args := ["--foreground"; "--id=a"];
     LivenessProbe := Some {| PeriodSeconds := 10 |};
     ReadinessProbe := None;
     StartupProbe := Some {| PeriodSeconds := 10 |} |}.

Definition logCollector : Container :=
  {| ContainerName := "log-collector"; Image := "quay.io/ceph/ceph:v17";
     Command := ["/bin/bash"]; Args := ["-c"; "logrotate"];
     LivenessProbe := Some {| PeriodSeconds := 30 |};
     ReadinessProbe := None; StartupProbe := None |}.

Definition deploymentOf (name : string) (cs : list Container) : Deployment :=
  {| DeploymentMeta := {| Name := name; Namespace := "rook-ceph";
                          Labels := Some {[ "app" := "rook-ceph-mon" ]} |};
     Spec := {| Replicas := Some 1%Z;
                Template := {| TemplateMeta := {| Name := ""; Namespace := "";
                                                  Labels := Some monLabels |};
                               TemplateSpec := {| Containers := cs |} |} |} |}.

Definition monDeployment : Deployment :=
  deploymentOf "rook-ceph-mon-a" [monContainer; logCollector].

Definition monPod : Pod :=
  {| PodMeta := {| Name := "rook-ceph-mon-a-5d8f7c9b4-x7k2p"; Namespace := "rook-ceph";
                   Labels := Some monLabels |};
     Phase := PodRunning |}.

Definition cluster0 : Cluster :=
  {| clusterDeployments := [monDeployment]; clusterPods := [monPod]; clock := 0 |}.

(** The same cluster with a readiness probe on the monitor container. *)
Definition probedContainer : Container :=
  {| ContainerName := "mon"; Image := "quay.io/ceph/ceph:v17";
     Command := ["ceph-mon"]; Args := ["--foreground"; "--id=a"];
     LivenessProbe := Some {| PeriodSeconds := 10 |};
     ReadinessProbe := Some {| PeriodSeconds := 5 |};
     StartupProbe := Some {| PeriodSeconds := 10 |} |}.

Definition clusterProbed : Cluster :=
  {| clusterDeployments := [deploymentOf "rook-ceph-mon-a" [probedContainer]];
     clusterPods := [monPod]; clock := 0 |}.

(** A container put to sleep, and the debug deployment of the monitor
    as the workflow builds it. *)
Definition asleep (name image : string) (readiness : option Probe) : Container :=
  {| ContainerName := name; Image := image;
     Command := ["sleep"; "infinity"]; Args := [];
     LivenessProbe := None; ReadinessProbe := readiness; StartupProbe := None |}.

Definition debugObject (cs : list Container) : Deployment :=
  {| DeploymentMeta :=
       {| Name := "rook-ceph-mon-a-debug"; Namespace := "rook-ceph";
          Labels := Some {[ "app" := "rook-ceph-mon";
                            "ceph.rook.io/do-not-reconcile" := "true" ]} |};
     Spec := {| Replicas := Some 1%Z;
                Template := {| TemplateMeta := {| Name := ""; Namespace := "";
                                                  Labels := Some monLabels |};
                               TemplateSpec := {| Containers := cs |} |} |} |}.

(** A cluster in which the debug deployment of the monitor exists. *)
Definition clusterDebugged : Cluster :=
  {| clusterDeployments :=
       [monDeployment; debugObject [asleep "mon" "quay.io/ceph/ceph:v17" None; logCollector]];
     clusterPods := [monPod]; clock := 0 |}.

Definition show (d : Deployment) : string := Name (DeploymentMeta d).

(** A monitor deployment whose object metadata has no label map. *)
Definition unlabelled : Deployment :=
  {| DeploymentMeta := {| Name := "rook-ceph-mon-b"; Namespace := "rook-ceph";
                          Labels := None |};
     Spec := Spec monDeployment |}.

Definition clusterUnlabelled : Cluster :=
  {| clusterDeployments := [unlabelled]; clusterPods := [monPod]; clock := 0 |}.

(** A deployment whose pod template has no label map. *)
Definition bareTemplate : Deployment :=
  {| DeploymentMeta := {| Name := "rook-ceph-mon-c"; Namespace := "rook-ceph";
                          Labels := Some {[ "app" := "rook-ceph-mon" ]} |};
     Spec := {| Replicas := Some 1%Z;
                Template := {| TemplateMeta := {| Name := ""; Namespace := "";
                                                  Labels := None |};
                               TemplateSpec := {| Containers := [monContainer] |} |} |} |}.

Definition clusterBare : Cluster :=
  {| clusterDeployments := [bareTemplate]; clusterPods := [monPod]; clock := 0 |}.

(** The workflow on this server, with a budget of 60 attempts at 5 s
    for the waits for a running pod. *)
Abbreviation debug name image c :=
  (startDebug show 60 (Second * 5) "rook-ceph" name image c).

End Fake.

(** An API server whose pod gets fail for a while: the cluster of
    [Fake] and the number of pod gets that are still refused. *)
Module Flaky.

Definition refused : error := errorString "connection refused".

Definition lift {A} (f : Fake.Cluster → A * Fake.Cluster) (c : Fake.Cluster * nat)
  : A * (Fake.Cluster * nat) :=
  ((f c.1).1, ((f c.1).2, c.2)).

Definition get_pod (ns name : string) (c : Fake.Cluster * nat)
  : (Pod + error) * (Fake.Cluster * nat) :=
  match c.2 with
  | S n => (inr refused, (c.1, n))
  | O => lift (Fake.get_pod ns name) c
  end.

#[global] Instance clientset : Interface (Fake.Cluster * nat) := {|
  deployments_get := λ ns name, lift (Fake.get_deployment ns name);
  deployments_create := λ ns obj, lift (Fake.create_deployment ns obj);
  deployments_update_scale := λ ns name s, lift (Fake.update_scale ns name s);
  pods_get := get_pod;
  pods_list := λ ns sel, lift (Fake.list_pods ns sel);
  time_sleep := λ d c, (Fake.sleep d c.1, c.2)
|}.

End Flaky.

(** A pod that takes 12 s to terminate: the state is the time elapsed,
    in nanoseconds; the pod is there until then and gone afterwards.
    The other calls are not used by the deletion wait. *)
Module Graceful.

Definition unavailable : error := errorString "unavailable".

Definition terminating : Pod :=
  {| PodMeta := {| Name := "rook-ceph-osd-0-6f7d9c-h2k4m"; Namespace := "rook-ceph";
                   Labels := None |};
     Phase := PodRunning |}.

Definition get_pod (ns name : string) (elapsed : Z) : (Pod + error) * Z :=
  if bool_decide (elapsed < 12 * Second)%Z
  then (inl terminating, elapsed)
  else (inr (StatusError StatusReasonNotFound "pods not found"), elapsed).

#[global] Instance clientset : Interface Z := {|
  deployments_get := λ _ _ t, (inr unavailable, t);
  deployments_create := λ _ _ t, (inr unavailable, t);
  deployments_update_scale := λ _ _ _ t, (inr unavailable, t);
  pods_get := get_pod;
  pods_list := λ _ _ t, (inr unavailable, t);
  time_sleep := λ d t, (t + d)%Z
|}.

End Graceful.

(** ** Runs, traces and predicates on them *)

Definition result_of {W A} (r : control A * W * list event) : control A := r.1.1.
Definition state_of {W A} (r : control A * W * list event) : W := r.1.2.
Definition trace_of {W A} (r : control A * W * list event) : list event := r.2.

(** [msg] mentions [s]: [s] occurs in it. *)
Definition mentions (msg s : string) : Prop := ∃ p q, msg = p +:+ s +:+ q.

Definition is_info (e : event) : Prop :=
  match e with Info _ _ => True | _ => False end.

(** The events of a wait for a running pod: list calls on one selector
    and sleeps. *)
Definition run_poll (ns selector : string) (e : event) : Prop :=
  match e with
  | PodsList ns' sel' _ => ns' = ns ∧ sel' = selector
  | Sleep _ => True
  | _ => False
  end.

(** The events of a wait for a pod's deletion: get calls on one pod
    name, log lines and sleeps. *)
Definition deletion_poll (ns podName : string) (e : event) : Prop :=
  match e with
  | PodsGet ns' name' _ => ns' = ns ∧ name' = podName
  | Sleep _ => True
  | Info _ _ => True
  | _ => False
  end.

(** Not a get that was answered not-found. *)
Definition still_there (e : event) : Prop :=
  match e with
  | PodsGet _ _ r => IsNotFound (err_of r) = false
  | _ => True
  end.

(** Not a listing that shows a pod in the Running phase. *)
Definition no_running (e : event) : Prop :=
  match e with
  | PodsList _ _ (inl pods) => Forall (λ p, Phase p ≠ PodRunning) pods
  | _ => True
  end.

(** Calls that change the cluster. *)
Definition is_write (e : event) : Prop :=
  match e with
  | DeploymentsCreate _ _ _ | DeploymentsUpdateScale _ _ _ _ => True
  | _ => False
  end.

(** What a wait for a running pod leaves behind: only polls, and on
    success a listing in which the returned pod reports Running. *)
Definition run_wait_post (ns sel : string) (c : control (Pod + error)) (tr : list event) : Prop :=
  Forall (run_poll ns sel) tr ∧
  ((∃ pod pods, c = Done (inl pod) ∧ PodsList ns sel (inl pods) ∈ tr
                ∧ pod ∈ pods ∧ Phase pod = PodRunning)
   ∨ (∃ e, c = Done (inr e))).

(** What a wait for a pod's deletion leaves behind: only polls of that
    one pod name, and on success a get that was answered not-found. *)
Definition deletion_wait_post (ns podName : string) (c : control (option error))
  (tr : list event) : Prop :=
  Forall (deletion_poll ns podName) tr ∧
  ((c = Done None ∧ ∃ r, PodsGet ns podName r ∈ tr ∧ IsNotFound (err_of r) = true)
   ∨ (c = Done (Some (errorString ("failed to delete pod " +:+ podName)))
      ∧ Forall still_there tr)).

(** One unsuccessful attempt of the deletion wait, and a run of them. *)
Definition deletion_attempt (ns podName : string) (r : Pod + error) : list event :=
  [PodsGet ns podName r; Info "waiting for pod %q to be deleted\n" [podName];
   Sleep (Second * 5)].

Definition deletion_attempts (ns podName : string) (rs : list (Pod + error)) : list event :=
  rs ≫= deletion_attempt ns podName.

(** The first container as lines 49-63 leave it. *)
Definition debugContainer (img : string) (c : Container) : Container :=
  {| ContainerName := ContainerName c;
     Image := if bool_decide (img ≠ "") then img else Image c;
     Command := ["sleep"; "infinity"];
     Args := [];
     LivenessProbe := None;
     ReadinessProbe := ReadinessProbe c;
     StartupProbe := None |}.

(** [d] has a first container and a label map, and [labels], [d'] are
    what the mutation makes of them. *)
Definition mutated (img : string) (d : Deployment) (labels : gmap string string)
  (d' : Deployment) : Prop :=
  ∃ c0 cs m,
    containers d = c0 :: cs ∧ Labels (DeploymentMeta d) = Some m
    ∧ labels = <["ceph.rook.io/do-not-reconcile" := "true"]> m
    ∧ d' = set_DeploymentLabels (Some labels) (set_containers (debugContainer img c0 :: cs) d).

Definition mutation_log (img : string) : list event :=
  (if bool_decide (img ≠ "") then [Info "setting debug image to %s\n" [img]] else [])
  ++ [Info "setting debug command to main container" []].

Definition scale_call (ns name : string) (n : Z) (r : Scale + error) : event :=
  DeploymentsUpdateScale ns name
    {| ScaleMeta := {| Name := name; Namespace := ns; Labels := None |};
       ScaleReplicas := n |} r.

(** The ways a run of the workflow can end. *)
Section Paths.
Variable Deployment_String : Deployment → string.
Variables ns name img : string.

(** The trace up to the end of each step, given what the step before
    returned. *)
Definition fetched (d : Deployment) : list event :=
  [Info "fetching the deployment %s to be running\n" [name];
   DeploymentsGet ns name (inl d);
   Info "deployment %s exists\n" [name]]
  ++ mutation_log img.

Definition scaled_down (d : Deployment) (t1 : list event) (pod : Pod) (s : Scale) : list event :=
  fetched d ++ t1
  ++ [scale_call ns (Name (DeploymentMeta d)) 0 (inl s);
      Info "deployment %s scaled down\n" [Name (DeploymentMeta d)];
      Info "waiting for the deployment pod %s to be deleted\n" [Name (PodMeta pod)]].

Definition created (d : Deployment) (t1 : list event) (pod : Pod) (s : Scale)
  (t2 : list event) (obj dbg : Deployment) : list event :=
  scaled_down d t1 pod s ++ t2
  ++ [DeploymentsCreate ns obj (inl dbg);
      Info "ensure the debug deployment %s is scaled up\n" [name]].

Definition scaled_up (d : Deployment) (t1 : list event) (pod : Pod) (s : Scale)
  (t2 : list event) (obj dbg : Deployment) (s' : Scale) : list event :=
  created d t1 pod s t2 obj dbg ++ [scale_call ns (Name (DeploymentMeta dbg)) 1 (inl s')].

Definition run_wait_ok (sel : string) (t : list event) (pod : Pod) : Prop :=
  Forall (run_poll ns sel) t
  ∧ ∃ pods, PodsList ns sel (inl pods) ∈ t ∧ pod ∈ pods ∧ Phase pod = PodRunning.

Definition deletion_wait_ok (t : list event) : Prop :=
  Forall (deletion_poll ns name) t
  ∧ ∃ r, PodsGet ns name r ∈ t ∧ IsNotFound (err_of r) = true.

Inductive startDebug_path : control (option error) → list event → Prop :=
| path_missing e :
    startDebug_path
      (Done (Some (errorString ("Missing mon or osd deployment name " +:+ name
                                +:+ ". " +:+ Error e +:+ LF))))
      [Info "fetching the deployment %s to be running\n" [name];
       DeploymentsGet ns name (inr e)]
| path_panic d why tm :
    containers d = [] ∨ Labels (DeploymentMeta d) = None →
    Forall is_info tm →
    startDebug_path (Panic why)
      ([Info "fetching the deployment %s to be running\n" [name];
        DeploymentsGet ns name (inl d);
        Info "deployment %s exists\n" [name]] ++ tm)
| path_no_pod d labels d' t1 e :
    mutated img d labels d' →
    Forall (run_poll ns (labelSelector_of d)) t1 →
    Forall no_running t1 →
    startDebug_path (Done (Some e)) (fetched d ++ t1)
| path_scale_down_failed d labels d' t1 pod e :
    mutated img d labels d' →
    run_wait_ok (labelSelector_of d) t1 pod →
    startDebug_path
      (Done (Some (errorString ("failed to update scale of deployment "
                                +:+ Name (DeploymentMeta d)
                                +:+ ". " +:+ Error e +:+ LF))))
      (fetched d ++ t1 ++ [scale_call ns (Name (DeploymentMeta d)) 0 (inr e)])
| path_not_deleted d labels d' t1 pod s t2 :
    mutated img d labels d' →
    run_wait_ok (labelSelector_of d) t1 pod →
    Forall (deletion_poll ns name) t2 →
    Forall still_there t2 →
    (∃ r, PodsGet ns name r ∈ t2) →
    startDebug_path
      (Done (Some (errorString ("failed to delete pod " +:+ name))))
      (scaled_down d t1 pod s ++ t2)
| path_create_failed d labels d' t1 pod s t2 e :
    mutated img d labels d' →
    run_wait_ok (labelSelector_of d) t1 pod →
    deletion_wait_ok t2 →
    startDebug_path
      (Done (Some (errorString
         ("Error creating deployment "
          +:+ Deployment_String (debugDeploymentSpec_of ns name labels d')
          +:+ ". " +:+ Error e +:+ LF))))
      (scaled_down d t1 pod s ++ t2
       ++ [DeploymentsCreate ns (debugDeploymentSpec_of ns name labels d') (inr e)])
| path_scale_up_failed d labels d' t1 pod s t2 dbg e :
    mutated img d labels d' →
    run_wait_ok (labelSelector_of d) t1 pod →
    deletion_wait_ok t2 →
    startDebug_path
      (Done (Some (errorString ("failed to update scale of deployment "
                                +:+ Name (DeploymentMeta dbg)
                                +:+ ". " +:+ Error e +:+ LF))))
      (created d t1 pod s t2 (debugDeploymentSpec_of ns name labels d') dbg
       ++ [scale_call ns (Name (DeploymentMeta dbg)) 1 (inr e)])
| path_debug_pod_missing d labels d' t1 pod s t2 dbg s' t3 e :
    mutated img d labels d' →
    run_wait_ok (labelSelector_of d) t1 pod →
    deletion_wait_ok t2 →
    Forall (run_poll ns (labelSelector_of d)) t3 →
    Forall no_running t3 →
    startDebug_path (Exit e)
      (scaled_up d t1 pod s t2 (debugDeploymentSpec_of ns name labels d') dbg s' ++ t3)
| path_ready d labels d' t1 pod s t2 dbg s' t3 pod' :
    mutated img d labels d' →
    run_wait_ok (labelSelector_of d) t1 pod →
    deletion_wait_ok t2 →
    run_wait_ok (labelSelector_of d) t3 pod' →
    startDebug_path (Done None)
      (scaled_up d t1 pod s t2 (debugDeploymentSpec_of ns name labels d') dbg s' ++ t3
       ++ [Info "pod %s is ready for debugging" [Name (PodMeta pod')]]).

End Paths.

(** Every event satisfying [Q] has an event satisfying [P] before it. *)
Definition precedes (P Q : event → Prop) (tr : list event) : Prop :=
  ∀ pre x post, tr = pre ++ x :: post → Q x → Exists P pre.

(** Nothing follows an event satisfying [Q]. *)
Definition ends_at (Q : event → Prop) (tr : list event) : Prop :=
  ∀ pre x post, tr = pre ++ x :: post → Q x → post = [].

Definition is_scale_down (e : event) : Prop :=
  match e with
  | DeploymentsUpdateScale _ _ s _ => ScaleReplicas s = 0%Z
  | _ => False
  end.

Definition is_scale_up (e : event) : Prop :=
  match e with
  | DeploymentsUpdateScale _ _ s _ => ScaleReplicas s = 1%Z
  | _ => False
  end.

Definition is_create (e : event) : Prop :=
  match e with
  | DeploymentsCreate _ _ _ => True
  | _ => False
  end.

(** A get, create or scale call the API answered with an error. *)
Definition call_failed (e : event) : Prop :=
  match e with
  | DeploymentsGet _ _ (inr _) | DeploymentsCreate _ _ (inr _)
  | DeploymentsUpdateScale _ _ _ (inr _) => True
  | _ => False
  end.

(** A listing that shows a pod in the Running phase. *)
Definition observes_running (ns : string) (e : event) : Prop :=
  ∃ selector pods pod,
    e = PodsList ns selector (inl pods) ∧ pod ∈ pods ∧ Phase pod = PodRunning.

(** A get of the pod [podName] answered not-found. *)
Definition observes_gone (ns podName : string) (e : event) : Prop :=
  ∃ r, e = PodsGet ns podName r ∧ IsNotFound (err_of r) = true.

Definition scaled_down_ok (ns : string) (e : event) : Prop :=
  ∃ n s s', e = DeploymentsUpdateScale ns n s (inl s') ∧ ScaleReplicas s = 0%Z.

(** A successful create whose answer carries the name [n]. *)
Definition created_ok (ns n : string) (e : event) : Prop :=
  ∃ obj dbg, e = DeploymentsCreate ns obj (inl dbg) ∧ Name (DeploymentMeta dbg) = n.

Definition is_pod_get (e : event) : Prop :=
  match e with
  | PodsGet _ _ _ => True
  | _ => False
  end.

Definition is_list (e : event) : Prop :=
  match e with
  | PodsList _ _ _ => True
  | _ => False
  end.

(** A get of the deployment [name] that the API answered with it. *)
Definition fetched_ok (ns name : string) (e : event) : Prop :=
  ∃ d, e = DeploymentsGet ns name (inl d).

(** A scale update to 1 that the API accepted. *)
Definition scaled_up_ok (ns : string) (e : event) : Prop :=
  ∃ n s s', e = DeploymentsUpdateScale ns n s (inl s') ∧ ScaleReplicas s = 1%Z.

(** The pauses of a run, in order. *)
Definition sleeps (tr : list event) : list Z :=
  omap (λ e, match e with Sleep d => Some d | _ => None end) tr.

(** The pod names a run polled with get, in order. *)
Definition polled (tr : list event) : list string :=
  omap (λ e, match e with PodsGet _ n _ => Some n | _ => None end) tr.

(** The deployments a run asked the API to create, in order. *)
Definition creates (tr : list event) : list Deployment :=
  omap (λ e, match e with DeploymentsCreate _ obj _ => Some obj | _ => None end) tr.

(** The scale updates of a run, in order: target name and replicas. *)
Definition scale_updates (tr : list event) : list (string * Z) :=
  omap (λ e, match e with
             | DeploymentsUpdateScale _ n s _ => Some (n, ScaleReplicas s)
             | _ => None
             end) tr.

(** All three probe pointers of a container are nil. *)
Definition probes_unset (c : Container) : Prop :=
  LivenessProbe c = None ∧ ReadinessProbe c = None ∧ StartupProbe c = None.


Global Arguments mutation_log : simpl never.

(** ** Reasoning about runs *)

Lemma mentions_intro (p s q : string) : mentions (p +:+ s +:+ q) s.
Proof. by exists p, q. Qed.

Lemma bind_inv {W A B} (m : Run W A) (k : A → Run W B) w c w' tr :
  bind m k w = (c, w', tr) →
  (∃ a w1 t1 t2, m w = (Done a, w1, t1) ∧ k a w1 = (c, w', t2) ∧ tr = t1 ++ t2)
  ∨ (∃ why, m w = (Panic why, w', tr) ∧ c = Panic why)
  ∨ (∃ e, m w = (Exit e, w', tr) ∧ c = Exit e).
Proof.
  unfold bind. destruct (m w) as [[[a|why|e] w1] t1].
  - destruct (k a w1) as [[c2 w2] t2] eqn:Hk. intros [= <- <- <-].
    left. by exists a, w1, t1, t2.
  - intros [= <- <- <-]. right; left. by exists why.
  - intros [= <- <- <-]. right; right. by exists e.
Qed.

Lemma bind_done {W A B} (m : Run W A) (k : A → Run W B) w a w1 t1 :
  m w = (Done a, w1, t1) →
  bind m k w = (result_of (k a w1), state_of (k a w1), t1 ++ trace_of (k a w1)).
Proof. unfold bind. intros ->. by destruct (k a w1) as [[??]?]. Qed.

Section Runs.
Context {W : Type} `{!Interface W}.
Variable Deployment_String : Deployment → string.
Variable runRetries : nat.
Variable runInterval : Z.

(** *** The two polling loops *)

Lemma run_wait_post_cons ns sel c e tr :
  run_poll ns sel e → run_wait_post ns sel c tr → run_wait_post ns sel c (e :: tr).
Proof.
  intros He [Hall Hres]. split; [by constructor |].
  destruct Hres as [(pod & pods & -> & Hin & Hp & Hr) | [e' ->]]; [left | right; eauto].
  exists pod, pods. split_and!; try done. by right.
Qed.

Lemma WaitForPodToRun_from_run n ns sel w c w' tr :
  WaitForPodToRun_from runInterval n ns sel w = (c, w', tr) →
  run_wait_post ns sel c tr.
Proof.
  revert w c w' tr. induction n as [|n IH]; intros w c w' tr; simpl.
  - intros [= <- <- <-]. split; [constructor | right; eauto].
  - assert (Hrec : ∀ w1 c2 w2 t2,
      bind (time_Sleep runInterval)
           (λ _, WaitForPodToRun_from runInterval n ns sel) w1 = (c2, w2, t2) →
      run_wait_post ns sel c2 t2).
    { intros w1 c2 w2 t2 Hb.
      apply bind_inv in Hb as [(a & w3 & t1 & t3 & Hs & Hn & ->) | [[? [Hs _]] | [? [Hs _]]]];
        try discriminate Hs.
      injection Hs as <- <- <-. apply run_wait_post_cons; [done | eauto]. }
    intros Hb.
    apply bind_inv in Hb as [(r & w1 & t1 & t2 & Hl & Hk & ->) | [[? [Hl _]] | [? [Hl _]]]];
      [| unfold Pods_List in Hl; destruct (pods_list ns sel w); discriminate Hl ..].
    unfold Pods_List in Hl. destruct (pods_list ns sel w) as [r' w1'].
    injection Hl as <- <- <-.
    destruct r' as [pods | e]; [destruct (List.find isRunning pods) as [pod|] eqn:Hf |];
      [| apply run_wait_post_cons; [done | by apply (Hrec w1' _ w')] ..].
    injection Hk as <- <- <-. apply find_some in Hf as [Hin Hrun].
    unfold isRunning in Hrun. apply bool_decide_eq_true in Hrun.
    split; [repeat constructor |]. left. exists pod, pods.
    split_and!; [done | by left | by apply list_elem_of_In | done].
Qed.

Lemma waitForPodDeletion_from_run n ns podName w c w' tr :
  waitForPodDeletion_from n ns podName w = (c, w', tr) →
  deletion_wait_post ns podName c tr.
Proof.
  revert w c w' tr. induction n as [|n IH]; intros w c w' tr; simpl.
  - intros [= <- <- <-]. split; [constructor | right; by split].
  - unfold bind at 1, Pods_Get. destruct (pods_get ns podName w) as [r w1].
    destruct (IsNotFound (err_of r)) eqn:Hnf.
    + intros [= <- <- <-]. split; [repeat constructor |].
      left. split; [done |]. exists r. split; [by left | done].
    + unfold bind, logInfo, emit, time_Sleep.
      destruct (waitForPodDeletion_from n ns podName _) as [[c2 w2] t2] eqn:Hn.
      intros [= <- <- <-]. destruct (IH _ _ _ _ Hn) as [Hall Hres].
      split; [by repeat constructor |].
      destruct Hres as [[-> (r' & Hin & Hr')] | [-> Hst]];
        [left | right; split; [done | by repeat constructor]].
      split; [done |]. exists r'. split; [| done]. by do 3 right.
Qed.

Lemma waitForPodDeletion_from_exhausts (Inv : W → Prop) n ns podName w :
  (∀ w, Inv w →
        IsNotFound (err_of (pods_get ns podName w).1) = false
        ∧ Inv (time_sleep (Second * 5) (pods_get ns podName w).2)) →
  Inv w →
  ∃ rs w',
    waitForPodDeletion_from n ns podName w
    = (Done (Some (errorString ("failed to delete pod " +:+ podName))), w',
       deletion_attempts ns podName rs)
    ∧ length rs = n
    ∧ Forall (λ r, IsNotFound (err_of r) = false) rs
    ∧ Inv w'.
Proof.
  intros Hstep. revert w. induction n as [|n IH]; intros w Hw; simpl.
  - exists [], w. by split_and!.
  - destruct (Hstep w Hw) as [Hnf Hnext].
    unfold bind at 1, Pods_Get. destruct (pods_get ns podName w) as [r w1]; simpl in *.
    rewrite Hnf. unfold bind, logInfo, emit, time_Sleep.
    destruct (IH _ Hnext) as (rs & w' & -> & Hlen & Hall & Hinv).
    exists (r :: rs), w'. split_and!; [done | by simpl; rewrite Hlen | by constructor | done].
Qed.

(** *** The in-memory mutation *)

Lemma mutateDeployment_ok img d c0 cs m (w : W) :
  containers d = c0 :: cs → Labels (DeploymentMeta d) = Some m →
  mutateDeployment img d w
  = (Done (<["ceph.rook.io/do-not-reconcile" := "true"]> m,
           set_DeploymentLabels (Some (<["ceph.rook.io/do-not-reconcile" := "true"]> m))
             (set_containers (debugContainer img c0 :: cs) d)),
     w, mutation_log img).
Proof.
  destruct d as [[n nsp l] [r [tm [cs']]]]. unfold containers; simpl. intros -> ->.
  unfold mutateDeployment, mutation_log, debugContainer.
  destruct (bool_decide (img ≠ "")); reflexivity.
Qed.

Lemma mutateDeployment_panics img d (w : W) :
  containers d = [] ∨ Labels (DeploymentMeta d) = None →
  ∃ why tr, mutateDeployment img d w = (Panic why, w, tr) ∧ Forall is_info tr.
Proof.
  destruct d as [[n nsp l] [r [tm [cs]]]]. unfold containers; simpl.
  unfold mutateDeployment.
  intros [-> | ->]; destruct (bool_decide (img ≠ "")); try destruct l; try destruct cs;
    eexists _, _; (split; [reflexivity | repeat constructor]).
Qed.

Lemma SetDeploymentScale_run ns name n (w : W) :
  SetDeploymentScale ns name n w
  = (Done (match (deployments_update_scale ns name
                    {| ScaleMeta := {| Name := name; Namespace := ns; Labels := None |};
                       ScaleReplicas := int32 n |} w).1 with
           | inl _ => None
           | inr err => Some (errorString ("failed to update scale of deployment " +:+ name
                                           +:+ ". " +:+ Error err +:+ LF))
           end),
     (deployments_update_scale ns name
        {| ScaleMeta := {| Name := name; Namespace := ns; Labels := None |};
           ScaleReplicas := int32 n |} w).2,
     [scale_call ns name (int32 n)
        (deployments_update_scale ns name
           {| ScaleMeta := {| Name := name; Namespace := ns; Labels := None |};
              ScaleReplicas := int32 n |} w).1]).
Proof.
  unfold SetDeploymentScale, bind, Deployments_UpdateScale, scale_call.
  by destruct (deployments_update_scale _ _ _ w) as [[s|e] w1].
Qed.

Lemma GetDeployment_run ns name (w : W) :
  GetDeployment ns name w
  = (Done (deployments_get ns name w).1, (deployments_get ns name w).2,
     Info "fetching the deployment %s to be running\n" [name]
     :: DeploymentsGet ns name (deployments_get ns name w).1
     :: match (deployments_get ns name w).1 with
        | inl _ => [Info "deployment %s exists\n" [name]]
        | inr _ => []
        end).
Proof.
  unfold GetDeployment, bind, logInfo, emit, Deployments_Get.
  by destruct (deployments_get ns name w) as [[d|e] w1].
Qed.

Lemma Deployments_Create_run ns obj (w : W) :
  Deployments_Create ns obj w
  = (Done (deployments_create ns obj w).1, (deployments_create ns obj w).2,
     [DeploymentsCreate ns obj (deployments_create ns obj w).1]).
Proof. unfold Deployments_Create. by destruct (deployments_create ns obj w). Qed.

Lemma bind_panic {A B} (m : Run W A) (k : A → Run W B) w why w1 t1 :
  m w = (Panic why, w1, t1) → bind m k w = (Panic why, w1, t1).
Proof. unfold bind. by intros ->. Qed.

Lemma path_cast ns name img c t t' :
  startDebug_path Deployment_String ns name img c t → t = t' → startDebug_path Deployment_String ns name img c t'.
Proof. by intros ? <-. Qed.

Lemma mutated_selector img d labels d' :
  mutated img d labels d' → labelSelector_of d' = labelSelector_of d.
Proof. by intros (c0 & cs & m & _ & _ & _ & ->). Qed.

Lemma mutated_name img d labels d' :
  mutated img d labels d' → Name (DeploymentMeta d') = Name (DeploymentMeta d).
Proof. by intros (c0 & cs & m & _ & _ & _ & ->). Qed.

Ltac same_trace :=
  unfold scaled_up, created, scaled_down, fetched; simpl;
  rewrite <- ?app_assoc; simpl; rewrite ?app_nil_r; reflexivity.

Lemma WaitForPodToRun_from_failed n ns sel w e w' tr :
  WaitForPodToRun_from runInterval n ns sel w = (Done (inr e), w', tr) →
  Forall no_running tr.
Proof.
  revert w tr. induction n as [|n IH]; intros w tr; simpl.
  - intros [= <- <- <-]. constructor.
  - assert (Hrec : ∀ w1 t2,
      bind (time_Sleep runInterval)
           (λ _, WaitForPodToRun_from runInterval n ns sel) w1 = (Done (inr e), w', t2) →
      Forall no_running t2).
    { intros w1 t2 Hb.
      apply bind_inv in Hb as [(a & w3 & t1 & t3 & Hs & Hn & ->) | [[? [_ Hs]] | [? [_ Hs]]]];
        try discriminate Hs.
      injection Hs as <- <- <-. constructor; [done | eauto]. }
    intros Hb.
    apply bind_inv in Hb as [(r & w1 & t1 & t2 & Hl & Hk & ->) | [[? [_ Hl]] | [? [_ Hl]]]];
      try discriminate Hl.
    unfold Pods_List in Hl. destruct (pods_list ns sel w) as [r' w1'].
    injection Hl as <- <- <-.
    destruct r' as [pods | e']; [destruct (List.find isRunning pods) as [pod|] eqn:Hf |].
    + discriminate Hk.
    + constructor; [| by apply (Hrec w1')]. simpl. apply Forall_forall. intros p Hp Hrun.
      apply list_elem_of_In in Hp. apply (find_none _ _ Hf) in Hp.
      unfold isRunning in Hp. by apply bool_decide_eq_false in Hp.
    + constructor; [done | by apply (Hrec w1')].
Qed.

Lemma WaitForPodToRun_run ns sel w c w' tr :
  WaitForPodToRun runRetries runInterval ns sel w = (c, w', tr) →
  (∃ pod, c = Done (inl pod) ∧ run_wait_ok ns sel tr pod)
  ∨ (∃ e, c = Done (inr e) ∧ Forall (run_poll ns sel) tr ∧ Forall no_running tr).
Proof.
  intros Hr. pose proof Hr as Hr'. apply WaitForPodToRun_from_run in Hr as [Hall Hres].
  destruct Hres as [(pod & pods & -> & Hin & Hp & Hrun) | [e ->]]; [left | right].
  - exists pod. split; [done |]. split; [done |]. by exists pods.
  - exists e. split_and!; [done | done |]. by eapply WaitForPodToRun_from_failed.
Qed.

Lemma waitForPodDeletion_polls ns podName (w : W) :
  ∃ r rest, trace_of (waitForPodDeletion ns podName w) = PodsGet ns podName r :: rest.
Proof.
  unfold waitForPodDeletion. simpl. unfold bind at 1, Pods_Get.
  destruct (pods_get ns podName w) as [r w1].
  destruct (if IsNotFound (err_of r) then _ else _) as [[c2 w2] t2]. by eexists _, _.
Qed.

Lemma waitForPodDeletion_run ns podName w c w' tr :
  waitForPodDeletion ns podName w = (c, w', tr) →
  (c = Done None ∧ deletion_wait_ok ns podName tr)
  ∨ (c = Done (Some (errorString ("failed to delete pod " +:+ podName)))
     ∧ Forall (deletion_poll ns podName) tr ∧ Forall still_there tr
     ∧ ∃ r, PodsGet ns podName r ∈ tr).
Proof.
  intros Hr. destruct (waitForPodDeletion_polls ns podName w) as (r & rest & Hhead).
  rewrite Hr in Hhead. simpl in Hhead. subst tr.
  apply waitForPodDeletion_from_run in Hr as [Hall Hres].
  destruct Hres as [[-> Hnf] | [-> Hst]]; [left | right]; repeat split; try done.
  exists r. by left.
Qed.

Lemma startDebug_inv ns name img w c w' tr :
  startDebug Deployment_String runRetries runInterval ns name img w = (c, w', tr) →
  startDebug_path Deployment_String ns name img c tr.
Proof.
  unfold startDebug. intros H.
  apply bind_inv in H as [(r & w1 & t0 & k1 & Hg & H & ->) | [(? & Hg & ->) | (? & Hg & ->)]];
    rewrite GetDeployment_run in Hg; try discriminate Hg.
  destruct (deployments_get ns name w) as [[d|e] w0]; simpl in Hg; injection Hg as <- <- <-;
    [| injection H as <- <- <-; eapply path_cast; [apply path_missing | done]].
  destruct (decide (containers d = [] ∨ Labels (DeploymentMeta d) = None)) as [Hbad|Hgood].
  { destruct (mutateDeployment_panics img d w0 Hbad) as (why & tm & Hm & Hinfo).
    rewrite (bind_panic _ _ _ _ _ _ Hm) in H. injection H as <- <- <-.
    eapply path_cast; [by apply path_panic | done]. }
  destruct (containers d) as [|c0 cs] eqn:Hcs; [by destruct Hgood; left |].
  destruct (Labels (DeploymentMeta d)) as [m|] eqn:Hl; [| by destruct Hgood; right].
  clear Hgood.
  apply bind_inv in H as [(x & w1 & tm & k2 & Hm & H & ->) | [(? & Hm & ->) | (? & Hm & ->)]];
    rewrite (mutateDeployment_ok img d c0 cs m w0 Hcs Hl) in Hm; try discriminate Hm.
  injection Hm as <- <- <-.
  set (labels := <["ceph.rook.io/do-not-reconcile" := "true"]> m) in *.
  set (d' := set_DeploymentLabels (Some labels)
               (set_containers (debugContainer img c0 :: cs) d)) in *.
  assert (Hmut : mutated img d labels d') by (by exists c0, cs, m).
  cbn beta iota in H.
  rewrite (mutated_selector _ _ _ _ Hmut), (mutated_name _ _ _ _ Hmut) in H.
  clearbody d' labels.
  (* the first wait for a running pod *)
  apply bind_inv in H as [(r1 & w2 & t1 & k3 & Hr1 & H & ->) | [(? & Hr1 & ->) | (? & Hr1 & ->)]];
    apply WaitForPodToRun_run in Hr1 as [(pod & Hc & Hok1) | (e & Hc & Hall1 & Hnr1)];
    try discriminate Hc; injection Hc as ->.
  2: { injection H as <- <- <-.
       eapply path_cast; [by apply (path_no_pod Deployment_String ns name img d labels d' t1 e) | same_trace]. }
  (* scaling the original down *)
  apply bind_inv in H as [(r2 & w3 & t2 & k4 & Hs & H & ->) | [(? & Hs & ->) | (? & Hs & ->)]];
    rewrite SetDeploymentScale_run in Hs; try discriminate Hs.
  destruct (deployments_update_scale ns _ _ w2) as [[s|e] w3']; simpl in Hs;
    injection Hs as <- <- <-.
  2: { injection H as <- <- <-.
       eapply path_cast; [by apply (path_scale_down_failed Deployment_String ns name img d labels d' t1 pod e) | same_trace]. }
  unfold bind at 1 2, logInfo, emit in H.
  destruct (bind (waitForPodDeletion ns name) _ w3') as [[c4 w4] t4] eqn:H4.
  injection H as <- <- <-.
  (* the wait for the deletion *)
  apply bind_inv in H4 as [(r3 & w5 & t3 & k5 & Hd & H & ->) | [(? & Hd & ->) | (? & Hd & ->)]];
    apply waitForPodDeletion_run in Hd as [[Hc Hok2] | (Hc & Hall2 & Hst2 & Hget2)];
    try discriminate Hc; injection Hc as ->.
  2: { injection H as <- <- <-.
       eapply path_cast; [by apply (path_not_deleted Deployment_String ns name img d labels d' t1 pod s t3) | same_trace]. }
  (* the create call *)
  apply bind_inv in H as [(r4 & w6 & t5 & k6 & Hc & H & ->) | [(? & Hc & ->) | (? & Hc & ->)]];
    rewrite Deployments_Create_run in Hc; try discriminate Hc.
  destruct (deployments_create ns _ w5) as [[dbg|e] w6']; simpl in Hc;
    injection Hc as <- <- <-.
  2: { injection H as <- <- <-.
       eapply path_cast; [by apply (path_create_failed Deployment_String ns name img d labels d' t1 pod s t3 e) | same_trace]. }
  unfold bind at 1, logInfo, emit in H.
  destruct (bind (SetDeploymentScale _ _ _) _ w6') as [[c7 w7] t7] eqn:H7.
  injection H as <- <- <-.
  (* scaling the debug deployment up *)
  apply bind_inv in H7 as [(r5 & w8 & t6 & k7 & Hs & H & ->) | [(? & Hs & ->) | (? & Hs & ->)]];
    rewrite SetDeploymentScale_run in Hs; try discriminate Hs.
  destruct (deployments_update_scale ns _ _ w6') as [[s'|e] w8']; simpl in Hs;
    injection Hs as <- <- <-.
  2: { injection H as <- <- <-.
       eapply path_cast; [by apply (path_scale_up_failed Deployment_String ns name img d labels d' t1 pod s t3 dbg e) | same_trace]. }
  (* the second wait for a running pod *)
  apply bind_inv in H as [(r6 & w9 & t8 & k8 & Hr2 & H & ->) | [(? & Hr2 & ->) | (? & Hr2 & ->)]];
    apply WaitForPodToRun_run in Hr2 as [(pod' & Hc & Hok3) | (e & Hc & Hall3 & Hnr3)];
    try discriminate Hc; injection Hc as ->.
  - injection H as <- <- <-.
    eapply path_cast; [by apply (path_ready Deployment_String ns name img d labels d' t1 pod s t3 dbg s' t8 pod') | same_trace].
  - injection H as <- <- <-.
    eapply path_cast; [by apply (path_debug_pod_missing Deployment_String ns name img d labels d' t1 pod s t3 dbg s' t8 e) | same_trace].
Qed.

End Runs.

(** ** Order of events *)

Lemma precedes_none P Q l : Forall (λ e, ¬ Q e) l → precedes P Q l.
Proof.
  intros Hall pre x post -> HQ. apply Forall_app in Hall as [_ Hall].
  apply Forall_cons in Hall as [Hx _]. by destruct Hx.
Qed.

Lemma precedes_app P Q l1 l2 :
  Forall (λ e, ¬ Q e) l1 → Exists P l1 ∨ precedes P Q l2 → precedes P Q (l1 ++ l2).
Proof.
  intros Hall Hor pre x post Heq HQ.
  apply app_eq_inv in Heq as [(k & -> & Hk) | (k & -> & Hl2)].
  - destruct k as [|y k]; simpl in Hk.
    + rewrite app_nil_r in Hor.
      destruct Hor as [He | Hp]; [done |].
      exfalso. by apply (Exists_nil P), (Hp [] x post).
    + injection Hk as <- _. apply Forall_app in Hall as [_ Hall].
      apply Forall_cons in Hall as [Hx _]. by destruct Hx.
  - apply Exists_app. destruct Hor as [He | Hp]; [by left | right; eauto].
Qed.

Lemma precedes_cons P Q e l :
  ¬ Q e → P e ∨ precedes P Q l → precedes P Q (e :: l).
Proof.
  intros HnQ Hor. apply (precedes_app P Q [e] l); [by repeat constructor |].
  destruct Hor as [He | Hp]; [left; by constructor | by right].
Qed.

Lemma ends_at_none Q l : Forall (λ e, ¬ Q e) l → ends_at Q l.
Proof.
  intros Hall pre x post -> HQ. apply Forall_app in Hall as [_ Hall].
  apply Forall_cons in Hall as [Hx _]. by destruct Hx.
Qed.

Lemma ends_at_snoc Q l y : Forall (λ e, ¬ Q e) l → ends_at Q (l ++ [y]).
Proof.
  intros Hall pre x post Heq HQ.
  apply app_eq_inv in Heq as [(k & -> & Hk) | (k & -> & Hk)].
  - destruct k as [|z k]; simpl in Hk; [by injection Hk |].
    injection Hk as <- _. apply Forall_app in Hall as [_ Hall].
    apply Forall_cons in Hall as [Hx _]. by destruct Hx.
  - destruct k as [|z k]; simpl in Hk; [by injection Hk |].
    injection Hk as _ Hk. by destruct k.
Qed.

Lemma ends_at_app Q l1 l2 : Forall (λ e, ¬ Q e) l1 → ends_at Q l2 → ends_at Q (l1 ++ l2).
Proof.
  intros Hall Hend pre x post Heq HQ.
  apply app_eq_inv in Heq as [(k & -> & Hk) | (k & -> & Hl2)].
  - destruct k as [|y k]; simpl in Hk; [by apply (Hend [] x post) |].
    injection Hk as <- _. apply Forall_app in Hall as [_ Hall].
    apply Forall_cons in Hall as [Hx _]. by destruct Hx.
  - by apply (Hend k x post).
Qed.

Lemma ends_at_cons Q e l : ¬ Q e → ends_at Q l → ends_at Q (e :: l).
Proof. intros He. apply (ends_at_app Q [e] l). by repeat constructor. Qed.

Lemma ends_at_singleton Q y : ends_at Q [y].
Proof. apply (ends_at_snoc Q [] y). constructor. Qed.

Lemma mutation_log_info img : Forall is_info (mutation_log img).
Proof. unfold mutation_log. destruct (bool_decide _); by repeat constructor. Qed.

Ltac open_path :=
  repeat match goal with
    | H : run_wait_ok _ _ _ _ |- _ => destruct H as [? (? & ? & ? & ?)]
    | H : deletion_wait_ok _ _ _ |- _ => destruct H as [? (? & ? & ?)]
    end.

Ltac unfold_trace :=
  unfold scaled_up, created, scaled_down, fetched, scale_call;
  rewrite <- ?app_assoc; simpl.

Ltac refute := first [tauto | discriminate | done].

(** No event of a trace made of known segments satisfies a predicate. *)
Ltac no_such :=
  repeat first
    [ match goal with
      | H : Forall _ ?t |- Forall _ ?t =>
          solve [eapply Forall_impl; [exact H | intros []; simpl; refute]]
      end
    | apply Forall_nil_2
    | apply Forall_cons_2; [solve [simpl; refute] |]
    | apply Forall_app_2 ].

Ltac ends :=
  repeat first
    [ apply ends_at_singleton
    | solve [apply ends_at_none; no_such]
    | apply ends_at_cons; [solve [simpl; refute] |]
    | apply ends_at_app; [solve [no_such] |] ].

Ltac exists_in_segment :=
  apply Exists_exists; eexists; split; [eassumption | repeat eexists; eauto].

Ltac prec :=
  first
    [ solve [apply precedes_none; no_such]
    | apply precedes_app;
      [solve [no_such] | first [left; solve [exists_in_segment] | right; prec]]
    | apply precedes_cons;
      [solve [simpl; refute]
      | first [left; solve [repeat eexists; eauto] | right; prec]] ].

(** An event that occurs in a trace made of known segments: split on
    where, and refute the segments that cannot hold it. *)
Ltac seg_absurd H :=
  match goal with
  | Hall : Forall ?R ?t |- _ =>
      match type of H with
      | _ ∈ t => apply (proj1 (Forall_forall R t) Hall) in H; simpl in H;
                 solve [done | tauto]
      end
  end.

Ltac seg_fact H :=
  multimatch goal with
  | Hall : Forall ?R ?t |- _ =>
      match type of H with
      | _ ∈ t => apply (proj1 (Forall_forall R t) Hall) in H; simpl in H
      end
  end.

Ltac in_cases H :=
  unfold scaled_up, created, scaled_down, fetched, scale_call in H;
  rewrite <- ?app_assoc in H; simpl in H;
  repeat first [rewrite elem_of_app in H | rewrite elem_of_cons in H | rewrite elem_of_nil in H];
  destruct_or? H; try done; simplify_eq; try seg_absurd H.

Ltac find_in_trace :=
  unfold_trace;
  solve [repeat first
    [ eassumption
    | apply list_elem_of_here
    | apply list_elem_of_further
    | apply elem_of_app; first [left; eassumption | right] ]].

Ltac find_event ev :=
  apply Exists_exists; exists ev; split; [find_in_trace | hnf; eauto 10].

Section Order.
Variable Deployment_String : Deployment → string.
Variables ns name img : string.
Variable c : control (option error).
Variable tr : list event.
Local Abbreviation path := (startDebug_path Deployment_String ns name img c tr).

Lemma path_running_before_scale_down :
  path →
  precedes (observes_running ns) is_scale_down tr.
Proof.
  intros Hpath. pose proof (mutation_log_info img).
  destruct Hpath; open_path; unfold_trace; prec.
Qed.

Lemma path_gone_before_create :
  path →
  precedes (observes_gone ns name) is_create tr.
Proof.
  intros Hpath. pose proof (mutation_log_info img).
  destruct Hpath; open_path; unfold_trace; prec.
Qed.

Lemma path_scaled_down_before_create :
  path →
  precedes (scaled_down_ok ns) is_create tr.
Proof.
  intros Hpath. pose proof (mutation_log_info img).
  destruct Hpath; open_path; unfold_trace; prec.
Qed.

Lemma path_created_before_scale_up :
  path →
  precedes (λ e, ∃ n, created_ok ns n e) is_scale_up tr.
Proof.
  intros Hpath. pose proof (mutation_log_info img).
  destruct Hpath; open_path; unfold_trace; prec.
Qed.

Lemma path_failed_call_last :
  path →
  ends_at call_failed tr.
Proof.
  intros Hpath. pose proof (mutation_log_info img).
  destruct Hpath; open_path; unfold_trace; ends.
Qed.

Lemma path_failed_call_error e :
  path →
  e ∈ tr → call_failed e → ∃ msg, c = Done (Some (errorString msg)).
Proof.
  intros Hpath. pose proof (mutation_log_info img).
  intros Hin Hf. destruct Hpath; open_path; in_cases Hin;
    try (seg_fact Hin; destruct e; simpl in *; first [done | tauto]);
    simpl in Hf; try done; eauto.
Qed.

Lemma path_ready_created :
  path →
  c = Done None → ∃ obj dbg, DeploymentsCreate ns obj (inl dbg) ∈ tr.
Proof.
  intros Hpath Hc. destruct Hpath; try discriminate Hc. eexists _, _. find_in_trace.
Qed.

Lemma path_pods_list ns' sel r :
  path →
  PodsList ns' sel r ∈ tr →
  ns' = ns ∧ ∃ d, DeploymentsGet ns name (inl d) ∈ tr ∧ sel = labelSelector_of d.
Proof.
  intros Hpath. pose proof (mutation_log_info img).
  intros Hin. destruct Hpath; open_path; in_cases Hin;
    seg_fact Hin; destruct Hin as [? ?]; subst; (split; [done |]); eexists;
    (split; [find_in_trace | done]).
Qed.

Lemma path_pods_get ns' n r :
  path →
  PodsGet ns' n r ∈ tr → ns' = ns ∧ n = name.
Proof.
  intros Hpath. pose proof (mutation_log_info img).
  intros Hin. destruct Hpath; open_path; in_cases Hin; by seg_fact Hin.
Qed.

Lemma path_deployments_get ns' n r :
  path →
  DeploymentsGet ns' n r ∈ tr → ns' = ns ∧ n = name.
Proof.
  intros Hpath. pose proof (mutation_log_info img).
  intros Hin. destruct Hpath; open_path; in_cases Hin; done.
Qed.

Lemma path_create ns' obj r :
  path →
  DeploymentsCreate ns' obj r ∈ tr →
  ns' = ns ∧ ∃ d labels d',
    DeploymentsGet ns name (inl d) ∈ tr ∧ mutated img d labels d'
    ∧ obj = debugDeploymentSpec_of ns name labels d'.
Proof.
  intros Hpath. pose proof (mutation_log_info img).
  intros Hin. destruct Hpath; open_path; in_cases Hin;
    (split; [done |]); eexists _, _, _; (split; [find_in_trace | done]).
Qed.

Lemma path_gone_create r :
  path →
  PodsGet ns name r ∈ tr → IsNotFound (err_of r) = true →
  ∃ obj r', DeploymentsCreate ns obj r' ∈ tr.
Proof.
  intros Hpath. pose proof (mutation_log_info img).
  intros Hin Hnf. destruct Hpath; open_path; in_cases Hin;
    try (seg_fact Hin; congruence); eexists _, _; find_in_trace.
Qed.

Lemma path_scale_up ns' n s r :
  path →
  DeploymentsUpdateScale ns' n s r ∈ tr → ScaleReplicas s = 1%Z →
  ns' = ns ∧ ∃ obj dbg, DeploymentsCreate ns obj (inl dbg) ∈ tr
                        ∧ n = Name (DeploymentMeta dbg).
Proof.
  intros Hpath. pose proof (mutation_log_info img).
  intros Hin Hs. destruct Hpath; open_path; in_cases Hin; try discriminate Hs;
    (split; [done |]); eexists _, _; (split; [find_in_trace | done]).
Qed.

Lemma path_scale_down ns' n s r :
  path →
  DeploymentsUpdateScale ns' n s r ∈ tr → ScaleReplicas s = 0%Z →
  ns' = ns ∧ ∃ d, DeploymentsGet ns name (inl d) ∈ tr ∧ n = Name (DeploymentMeta d).
Proof.
  intros Hpath. pose proof (mutation_log_info img).
  intros Hin Hs. destruct Hpath; open_path; in_cases Hin; try discriminate Hs;
    (split; [done |]); eexists; (split; [find_in_trace | done]).
Qed.


Lemma path_create_failed_last ns' obj e :
  path →
  DeploymentsCreate ns' obj (inr e) ∈ tr →
  c = Done (Some (errorString ("Error creating deployment " +:+ Deployment_String obj
                               +:+ ". " +:+ Error e +:+ LF)))
  ∧ ∃ pre, tr = pre ++ [DeploymentsCreate ns' obj (inr e)]
           ∧ Exists (scaled_down_ok ns) pre.
Proof.
  intros Hpath. pose proof (mutation_log_info img).
  intros Hin. destruct Hpath; open_path; in_cases Hin.
  split; [done |]. eexists (_ ++ _). split.
  - apply app_assoc.
  - apply Exists_app. left. unfold scaled_down. rewrite !Exists_app. right; right.
    apply Exists_cons_hd. by eexists _, _, _.
Qed.

Lemma path_scale_updates ns' n s r :
  path →
  DeploymentsUpdateScale ns' n s r ∈ tr →
  ns' = ns ∧ (ScaleReplicas s = 0%Z ∨ ScaleReplicas s = 1%Z).
Proof.
  intros Hpath. pose proof (mutation_log_info img).
  intros Hin. destruct Hpath; open_path; in_cases Hin; (split; [done |]);
    first [by left | by right].
Qed.

Lemma path_create_failed_scale ns' obj e ns'' n s r :
  path →
  DeploymentsCreate ns' obj (inr e) ∈ tr →
  DeploymentsUpdateScale ns'' n s r ∈ tr →
  ScaleReplicas s = 0%Z ∧ ∃ s', r = inl s'.
Proof.
  intros Hpath. pose proof (mutation_log_info img).
  intros Hin Hsc. destruct Hpath; open_path; in_cases Hin; in_cases Hsc.
  split; [done | by eexists].
Qed.

Lemma path_scaled_down_before_pod_get :
  path → precedes (scaled_down_ok ns) is_pod_get tr.
Proof.
  intros Hpath. pose proof (mutation_log_info img).
  destruct Hpath; open_path; unfold_trace; prec.
Qed.

Lemma path_fetched_before_list :
  path → precedes (fetched_ok ns name) is_list tr.
Proof.
  intros Hpath. pose proof (mutation_log_info img).
  destruct Hpath; open_path; unfold_trace; prec.
Qed.

Lemma path_running_then_scale_down e :
  path → e ∈ tr → observes_running ns e → Exists is_scale_down tr.
Proof.
  intros Hpath. pose proof (mutation_log_info img).
  intros Hin (sel & pods & pod & -> & Hp & Hrun).
  destruct Hpath; open_path; in_cases Hin;
    try (seg_fact Hin; exfalso;
         match goal with
         | Hf : Forall _ pods |- _ => by apply (proj1 (Forall_forall _ _) Hf pod Hp)
         end);
    first [ find_event (scale_call ns (Name (DeploymentMeta d)) 0 (inl s))
          | find_event (scale_call ns (Name (DeploymentMeta d)) 0 (inr e)) ].
Qed.

Lemma path_scaled_down_then_pod_get e :
  path → e ∈ tr → scaled_down_ok ns e → ∃ r, PodsGet ns name r ∈ tr.
Proof.
  intros Hpath. pose proof (mutation_log_info img).
  intros Hin (n & s0 & s0' & -> & Hs).
  destruct Hpath; open_path;
    try match goal with Hex : ∃ r, PodsGet _ _ r ∈ _ |- _ => destruct Hex as [? ?] end;
    in_cases Hin; try discriminate Hs; eexists; find_in_trace.
Qed.

Lemma path_created_then_scale_up ns' obj dbg :
  path → DeploymentsCreate ns' obj (inl dbg) ∈ tr →
  ∃ s r, DeploymentsUpdateScale ns (Name (DeploymentMeta dbg)) s r ∈ tr
         ∧ ScaleReplicas s = 1%Z.
Proof.
  intros Hpath. pose proof (mutation_log_info img).
  intros Hin. destruct Hpath; open_path; in_cases Hin;
    eexists _, _; (split; [find_in_trace | done]).
Qed.

Lemma path_scaled_up_result e :
  path → e ∈ tr → scaled_up_ok ns e → c = Done None ∨ ∃ err, c = Exit err.
Proof.
  intros Hpath. pose proof (mutation_log_info img).
  intros Hin (n & s0 & s0' & -> & Hs).
  destruct Hpath; open_path; in_cases Hin; try discriminate Hs; eauto.
Qed.

Lemma path_ready_shape :
  path → c = Done None →
  ∃ pre e post, tr = pre ++ e :: post ∧ scaled_up_ok ns e
                ∧ Exists (observes_running ns) post.
Proof.
  intros Hpath Hc. destruct Hpath; try discriminate Hc. open_path.
  exists (created ns name img d t1 pod s t2 (debugDeploymentSpec_of ns name labels d') dbg),
    (scale_call ns (Name (DeploymentMeta dbg)) 1 (inl s')),
    (t3 ++ [Info "pod %s is ready for debugging" [Name (PodMeta pod')]]).
  split; [unfold scaled_up; by rewrite <- app_assoc |].
  split; [by eexists _, _, _ |].
  apply Exists_app. left. apply Exists_exists. eexists. split; [eassumption |].
  by eexists _, _, _.
Qed.

Lemma path_no_running_no_write :
  path → (∀ e, e ∈ tr → ¬ observes_running ns e) →
  Forall (λ e, ¬ is_write e) tr ∧ c ≠ Done None.
Proof.
  intros Hpath. pose proof (mutation_log_info img).
  intros Hnone.
  destruct Hpath; open_path;
    try (exfalso;
         match goal with
         | Hl : PodsList ns ?sel (inl ?pods) ∈ ?t |- _ =>
             apply (Hnone (PodsList ns sel (inl pods)));
             [find_in_trace | by eexists _, _, _]
         end);
    (split; [unfold_trace; no_such | done]).
Qed.

Lemma path_deletion_exhausted :
  path → (∃ r, PodsGet ns name r ∈ tr) →
  (∀ ns' n r, PodsGet ns' n r ∈ tr → IsNotFound (err_of r) = false) →
  c = Done (Some (errorString ("failed to delete pod " +:+ name)))
  ∧ Forall (λ e, ¬ is_create e) tr ∧ Forall (λ e, ¬ is_scale_up e) tr.
Proof.
  intros Hpath. pose proof (mutation_log_info img).
  intros [r Hin] Hnone.
  destruct Hpath; open_path;
    try (exfalso;
         match goal with
         | Hl : PodsGet ns name ?r0 ∈ ?t, Hnf : IsNotFound (err_of ?r0) = true |- _ =>
             assert (IsNotFound (err_of r0) = false)
               by (apply (Hnone ns name r0); find_in_trace);
             congruence
         end);
    try (in_cases Hin; fail);
    (split; [done |]); split; unfold_trace; no_such.
Qed.

Lemma path_get_second ns' n r :
  path → DeploymentsGet ns' n r ∈ tr →
  ∃ rest, tr = Info "fetching the deployment %s to be running\n" [name]
               :: DeploymentsGet ns' n r :: rest.
Proof.
  intros Hpath. pose proof (mutation_log_info img).
  intros Hin. destruct Hpath; open_path; in_cases Hin; unfold_trace; by eexists.
Qed.

Lemma omap_cons_eq {A B} (f : A → option B) (x : A) (l : list A) :
  omap f (x :: l) = match f x with Some y => [y] | None => [] end ++ omap f l.
Proof. simpl. by destruct (f x). Qed.

Lemma omap_none_forall {A B} (f : A → option B) (l : list A) :
  Forall (λ x, f x = None) l → omap f l = [].
Proof. induction 1 as [|x l Hx _ IH]; [done |]. by rewrite omap_cons_eq, Hx, IH. Qed.

Ltac omap_trace f :=
  unfold scaled_up, created, scaled_down, fetched, scale_call;
  repeat first
    [ rewrite omap_app
    | rewrite omap_cons_eq
    | match goal with
      | H : Forall _ ?t |- _ =>
          rewrite (omap_none_forall f t)
            by (eapply Forall_impl; [exact H | intros []; simpl; first [done | tauto]])
      end ];
  simpl.

Lemma path_write_budget :
  path →
  (length (creates tr) ≤ 1)%nat
  ∧ Forall (λ obj, Name (DeploymentMeta obj) = name +:+ "-debug") (creates tr)
  ∧ (scale_updates tr = []
     ∨ (∃ n, scale_updates tr = [(n, 0%Z)])
     ∨ (∃ n m, scale_updates tr = [(n, 0%Z); (m, 1%Z)])).
Proof.
  intros Hpath. pose proof (mutation_log_info img).
  unfold creates, scale_updates.
  destruct Hpath; open_path; split_and!.
  all: try (omap_trace (λ e, match e with DeploymentsCreate _ obj _ => Some obj | _ => None end);
            first [lia | apply Forall_nil_2 | by apply Forall_cons_2]).
  all: omap_trace (λ e, match e with
                        | DeploymentsUpdateScale _ n s _ => Some (n, ScaleReplicas s)
                        | _ => None
                        end); eauto.
Qed.

End Order.

(** ** Strings *)

Lemma string_app_assoc (a b c : string) : (a +:+ b) +:+ c = a +:+ (b +:+ c).
Proof.
  induction a as [|x a IH]; [done |].
  change (String x ((a +:+ b) +:+ c) = String x (a +:+ (b +:+ c))). by rewrite IH.
Qed.

Lemma string_app_length (a b : string) :
  String.length (a +:+ b) = String.length a + String.length b.
Proof.
  induction a as [|x a IH]; [done |].
  change (S (String.length (a +:+ b)) = S (String.length a + String.length b)).
  by rewrite IH.
Qed.

Lemma debug_name_fresh (name : string) : name +:+ "-debug" ≠ name.
Proof.
  intros Heq. apply (f_equal String.length) in Heq.
  rewrite string_app_length in Heq. simpl in Heq. lia.
Qed.

Lemma mentions_app_l (p msg s : string) : mentions msg s → mentions (p +:+ msg) s.
Proof. intros (a & b & ->). exists (p +:+ a), b. by rewrite string_app_assoc. Qed.

Lemma mentions_head (s q : string) : mentions (s +:+ q) s.
Proof. by exists "", q. Qed.

Lemma string_app_nil_r (a : string) : a +:+ "" = a.
Proof.
  induction a as [|x a IH]; [done |].
  change (String x (a +:+ "") = String x a). by rewrite IH.
Qed.

Lemma mentions_refl (s : string) : mentions s s.
Proof. exists "", "". by rewrite string_app_nil_r. Qed.

(** ** The claims *)

Section Claims.
Context {W : Type} `{!Interface W}.
Variable Deployment_String : Deployment → string.
Variable runRetries : nat.
Variable runInterval : Z.

Local Abbreviation debug := (startDebug Deployment_String runRetries runInterval).

Lemma startDebug_path_of ns name img (w : W) :
  startDebug_path Deployment_String ns name img
    (result_of (debug ns name img w)) (trace_of (debug ns name img w)).
Proof.
  destruct (debug ns name img w) as [[c w'] tr] eqn:Hrun.
  by apply startDebug_inv in Hrun.
Qed.

Lemma bind_trace_prefix {A B} (m : Run W A) (k : A → Run W B) w :
  ∃ rest, trace_of (bind m k w) = trace_of (m w) ++ rest.
Proof.
  unfold bind. destruct (m w) as [[[a|why|e] w1] t1]; simpl.
  - destruct (k a w1) as [[c2 w2] t2]. by exists t2.
  - exists []. by rewrite app_nil_r.
  - exists []. by rewrite app_nil_r.
Qed.

Lemma startDebug_trace_head ns name img (w : W) :
  ∃ rest, trace_of (debug ns name img w)
          = Info "fetching the deployment %s to be running\n" [name]
            :: DeploymentsGet ns name (deployments_get ns name w).1 :: rest.
Proof.
  unfold startDebug.
  match goal with
  | |- context [bind (GetDeployment ns name) ?k w] =>
      destruct (bind_trace_prefix (GetDeployment ns name) k w) as [rest ->]
  end.
  rewrite GetDeployment_run. simpl. by eexists.
Qed.

(** C6: [SetDeploymentScale] issues exactly one Scale update, for the
    named deployment and the given count; an API failure comes back as
    an error that carries the deployment name and the API's message,
    with no second attempt, and a success comes back as nil. *)
Theorem SetDeploymentScale_single_update ns name (n : Z) (w : W) :
  ∃ r,
    deployments_update_scale ns name
      {| ScaleMeta := {| Name := name; Namespace := ns; Labels := None |};
         ScaleReplicas := int32 n |} w
    = (r, state_of (SetDeploymentScale ns name n w))
    ∧ trace_of (SetDeploymentScale ns name n w)
      = [DeploymentsUpdateScale ns name
           {| ScaleMeta := {| Name := name; Namespace := ns; Labels := None |};
              ScaleReplicas := int32 n |} r]
    ∧ match r with
      | inl _ => result_of (SetDeploymentScale ns name n w) = Done None
      | inr err =>
          ∃ msg, result_of (SetDeploymentScale ns name n w) = Done (Some (errorString msg))
                 ∧ mentions msg name ∧ mentions msg (Error err)
      end.
Proof.
  rewrite SetDeploymentScale_run. unfold state_of, trace_of, result_of, scale_call; simpl.
  destruct (deployments_update_scale ns name _ w) as [[s|err] w1]; simpl.
  - by exists (inl s).
  - exists (inr err). split_and!; [done | done |]. eexists. split_and!; [done | |].
    + apply mentions_intro.
    + do 3 apply mentions_app_l. apply mentions_head.
Qed.

(** C3: when the API answers the get of the target deployment with an
    error, the workflow returns at once with an error that names the
    deployment; the run consists of that one get, so no scale update
    and no create call is issued. *)
Theorem startDebug_missing_deployment ns name img (w : W) e w1 :
  deployments_get ns name w = (inr e, w1) →
  ∃ msg,
    result_of (debug ns name img w) = Done (Some (errorString msg))
    ∧ mentions msg name
    ∧ state_of (debug ns name img w) = w1
    ∧ trace_of (debug ns name img w)
      = [Info "fetching the deployment %s to be running\n" [name];
         DeploymentsGet ns name (inr e)]
    ∧ Forall (λ ev, ¬ is_write ev) (trace_of (debug ns name img w)).
Proof.
  intros Hget.
  assert (Hrun : debug ns name img w
    = (Done (Some (errorString ("Missing mon or osd deployment name " +:+ name
                                +:+ ". " +:+ Error e +:+ LF))), w1,
       [Info "fetching the deployment %s to be running\n" [name];
        DeploymentsGet ns name (inr e)])).
  { unfold startDebug, bind at 1. by rewrite GetDeployment_run, Hget. }
  rewrite Hrun. eexists. split_and!; [done | apply mentions_intro | done | done |].
  repeat constructor; by intros [].
Qed.

Lemma deletion_attempts_polled ns podName rs :
  polled (deletion_attempts ns podName rs) = replicate (length rs) podName.
Proof. induction rs as [|r rs IH]; [done |]. simpl. by rewrite <- IH. Qed.

Lemma deletion_attempts_sleeps ns podName rs :
  sleeps (deletion_attempts ns podName rs) = replicate (length rs) (Second * 5)%Z.
Proof. induction rs as [|r rs IH]; [done |]. simpl. by rewrite <- IH. Qed.

(** C4: while the get of the pod is never answered not-found, the
    deletion wait makes exactly 60 attempts, each a get of that pod
    followed by one pause of 5 seconds, and then returns an error
    whose message contains the pod's name. *)
Theorem waitForPodDeletion_exhausts (Inv : W → Prop) ns podName (w : W) :
  (∀ w, Inv w →
        IsNotFound (err_of (pods_get ns podName w).1) = false
        ∧ Inv (time_sleep (Second * 5) (pods_get ns podName w).2)) →
  Inv w →
  ∃ rs msg,
    result_of (waitForPodDeletion ns podName w) = Done (Some (errorString msg))
    ∧ mentions msg podName
    ∧ trace_of (waitForPodDeletion ns podName w) = deletion_attempts ns podName rs
    ∧ length rs = 60
    ∧ polled (trace_of (waitForPodDeletion ns podName w)) = replicate 60 podName
    ∧ sleeps (trace_of (waitForPodDeletion ns podName w)) = replicate 60 5000000000%Z.
Proof.
  intros Hstep Hw.
  destruct (waitForPodDeletion_from_exhausts Inv 60 ns podName w Hstep Hw)
    as (rs & w' & Hrun & Hlen & Hall & Hinv).
  unfold waitForPodDeletion. rewrite Hrun. exists rs. eexists.
  unfold result_of, trace_of; simpl.
  split_and!; [done | apply mentions_app_l, mentions_refl | done | done | |].
  - by rewrite deletion_attempts_polled, Hlen.
  - by rewrite deletion_attempts_sleeps, Hlen.
Qed.

(** C1, amended: with a non-empty alternate image, every create call
    of a run is in the workflow's namespace and carries a deployment
    named after the target with the suffix -debug, in that namespace,
    whose first container has the alternate image, the command sleep
    infinity, no args and no liveness or startup probe; its readiness
    probe and the other containers are those of the fetched
    deployment.  A run that returns nil has issued such a call and the
    API accepted it. *)
Theorem startDebug_creates_debug_deployment ns name img (w : W) :
  img ≠ "" →
  (result_of (debug ns name img w) = Done None →
   ∃ obj dbg, DeploymentsCreate ns obj (inl dbg) ∈ trace_of (debug ns name img w))
  ∧ (∀ ns' obj r,
       DeploymentsCreate ns' obj r ∈ trace_of (debug ns name img w) →
       ns' = ns
       ∧ Name (DeploymentMeta obj) = name +:+ "-debug"
       ∧ Namespace (DeploymentMeta obj) = ns
       ∧ ∃ d c0 cs,
           DeploymentsGet ns name (inl d) ∈ trace_of (debug ns name img w)
           ∧ containers d = c0 :: cs
           ∧ containers obj
             = {| ContainerName := ContainerName c0;
                  Image := img;
                  Command := ["sleep"; "infinity"];
                  Args := [];
                  LivenessProbe := None;
                  ReadinessProbe := ReadinessProbe c0;
                  StartupProbe := None |} :: cs).
Proof.
  intros Himg. pose proof (startDebug_path_of ns name img w) as Hpath. split.
  - intros Hres. by eapply path_ready_created.
  - intros ns' obj r Hin.
    destruct (path_create _ _ _ _ _ _ _ _ _ Hpath Hin)
      as (-> & d & labels & d' & Hget & (c0 & cs & m & Hcs & Hl & -> & ->) & ->).
    split_and!; try done. exists d, c0, cs. split_and!; try done.
    unfold containers, debugContainer; simpl. by rewrite bool_decide_eq_true_2.
Qed.

(** C9: the first container of the deployment a run creates has the
    image of the fetched deployment's first container when the
    alternate image is empty, and the alternate image otherwise. *)
Theorem startDebug_empty_image_keeps_image ns name img (w : W) ns' obj r :
  DeploymentsCreate ns' obj r ∈ trace_of (debug ns name img w) →
  ∃ d c0 c0' cs,
    DeploymentsGet ns name (inl d) ∈ trace_of (debug ns name img w)
    ∧ containers d = c0 :: cs
    ∧ containers obj = c0' :: cs
    ∧ (img = "" → Image c0' = Image c0)
    ∧ (img ≠ "" → Image c0' = img).
Proof.
  intros Hin. pose proof (startDebug_path_of ns name img w) as Hpath.
  destruct (path_create _ _ _ _ _ _ _ _ _ Hpath Hin)
    as (-> & d & labels & d' & Hget & (c0 & cs & m & Hcs & Hl & -> & ->) & ->).
  exists d, c0, (debugContainer img c0), cs. split_and!; try done.
  - intros ->. done.
  - intros Himg. unfold debugContainer; simpl. by rewrite bool_decide_eq_true_2.
Qed.

(** C10: on a deployment with at least one container and a non-nil
    label map the mutation does not panic; it leaves the number of
    containers and every container after the first as they were; and
    a run that fetched such a deployment does not panic. *)
Theorem mutateDeployment_in_bounds ns name img (w : W) d :
  containers d ≠ [] → Labels (DeploymentMeta d) ≠ None →
  (∃ labels d' tr,
     mutateDeployment img d w = (Done (labels, d'), w, tr)
     ∧ length (containers d') = length (containers d)
     ∧ ∀ i, containers d' !! S i = containers d !! S i)
  ∧ ((deployments_get ns name w).1 = inl d →
     ∀ why, result_of (debug ns name img w) ≠ Panic why).
Proof.
  intros Hcs Hl.
  destruct (containers d) as [|c0 cs] eqn:Hcs'; [done |].
  destruct (Labels (DeploymentMeta d)) as [m|] eqn:Hl'; [| done]. split.
  - rewrite (mutateDeployment_ok img d c0 cs m w Hcs' Hl'). by eexists _, _, _.
  - intros Hget why Hres. pose proof (startDebug_path_of ns name img w) as Hpath.
    destruct (startDebug_trace_head ns name img w) as [rest Hhead].
    rewrite Hres, Hhead, Hget in Hpath. inversion Hpath as [|d0 ? tm Hbad| | | | | | |]; subst.
    destruct Hbad as [Hbad | Hbad]; congruence.
Qed.

(** C5: when the API rejects the create of the debug deployment, the
    workflow returns an error carrying the API's message; the rejected
    create is the last thing the run did; a scale update to 0 was
    accepted before it; and every scale update of the run is that
    update to 0, so nothing scales the original back up. *)
Theorem startDebug_create_failure_no_rollback ns name img (w : W) ns' obj e :
  DeploymentsCreate ns' obj (inr e) ∈ trace_of (debug ns name img w) →
  (∃ msg, result_of (debug ns name img w) = Done (Some (errorString msg))
          ∧ mentions msg (Error e))
  ∧ (∃ pre, trace_of (debug ns name img w) = pre ++ [DeploymentsCreate ns' obj (inr e)]
            ∧ Exists (scaled_down_ok ns) pre)
  ∧ (∀ ns'' n s r,
       DeploymentsUpdateScale ns'' n s r ∈ trace_of (debug ns name img w) →
       ScaleReplicas s = 0%Z ∧ ∃ s', r = inl s').
Proof.
  intros Hin. pose proof (startDebug_path_of ns name img w) as Hpath.
  destruct (path_create_failed_last _ _ _ _ _ _ _ _ _ Hpath Hin) as [Hres Hlast].
  split_and!.
  - eexists. split; [exact Hres |]. do 3 apply mentions_app_l. apply mentions_head.
  - done.
  - intros ns'' n s r Hsc. by eapply path_create_failed_scale.
Qed.

Lemma bind_trace_done {A B} (m : Run W A) (k : A → Run W B) w a w1 t1 :
  m w = (Done a, w1, t1) → trace_of (bind m k w) = t1 ++ trace_of (k a w1).
Proof. unfold bind. intros ->. by destruct (k a w1) as [[??]?]. Qed.

Lemma WaitForPodToRun_polls ns sel (w : W) :
  runRetries ≠ 0 →
  ∃ r rest, trace_of (WaitForPodToRun runRetries runInterval ns sel w)
            = PodsList ns sel r :: rest.
Proof.
  unfold WaitForPodToRun. destruct runRetries as [|n]; [done |]. intros _. simpl.
  match goal with
  | |- context [bind (Pods_List ns sel) ?k w] =>
      destruct (bind_trace_prefix (Pods_List ns sel) k w) as [rest ->]
  end.
  unfold Pods_List. destruct (pods_list ns sel w) as [r w1]. by eexists _, _.
Qed.

Lemma startDebug_begins_wait ns name img (w : W) d :
  (deployments_get ns name w).1 = inl d →
  containers d ≠ [] → Labels (DeploymentMeta d) ≠ None → runRetries ≠ 0 →
  ∃ r, PodsList ns (labelSelector_of d) r ∈ trace_of (debug ns name img w).
Proof.
  intros Hget Hcs Hl Hn.
  destruct (containers d) as [|c0 cs] eqn:Hcs'; [done |].
  destruct (Labels (DeploymentMeta d)) as [m|] eqn:Hl'; [| done].
  unfold startDebug.
  rewrite (bind_trace_done _ _ _ _ _ _ (GetDeployment_run ns name w)), Hget.
  rewrite (bind_trace_done _ _ _ _ _ _ (mutateDeployment_ok img d c0 cs m _ Hcs' Hl')).
  cbn beta iota.
  match goal with
  | |- context [bind (WaitForPodToRun _ _ ns ?sel) ?k ?w1] =>
      destruct (bind_trace_prefix
                  (WaitForPodToRun runRetries runInterval ns sel) k w1) as [rest ->];
      destruct (WaitForPodToRun_polls ns sel w1 Hn) as (r & rest' & ->)
  end.
  exists r. apply elem_of_app; right. apply elem_of_app; right. apply elem_of_app; left.
  left.
Qed.

(** C7, amended: the steps of a run come in one fixed order and each
    is begun when the one before succeeded.  The run begins with the
    get of the target; pods are listed only after that get was
    answered, and only by the daemon-type/id selector of the fetched
    deployment; a scale update to 0 comes only after a listing showed
    a Running pod; a pod get comes only after an accepted scale update
    to 0 and is of the name the deletion wait polls; a create comes
    only after such a get was answered not-found; a scale update to 1
    comes only after an accepted create and targets the name that
    create answered; there is no other scale update.  Conversely a
    fetched deployment that the mutation accepts is followed by a
    listing (when the wait has a budget), a Running observation by a
    scale update to 0, an accepted scale update to 0 by a pod get, a
    not-found answer by a create, an accepted create by a scale update
    to 1, and a run that returns nil has an accepted scale update to 1
    with a Running observation after it.  The error of a step ends the
    run: a failed deployment get, create or scale update is the last
    event and the run returns an error; a run that never saw a Running
    pod issues no write and does not return nil; a run whose deletion
    polls were never answered not-found returns the deletion error
    with no create and no scale update to 1; after an accepted scale
    update to 1 the run returns nil or exits. *)
Theorem startDebug_step_order ns name img (w : W) :
  (∃ rest, trace_of (debug ns name img w)
           = Info "fetching the deployment %s to be running\n" [name]
             :: DeploymentsGet ns name (deployments_get ns name w).1 :: rest)
  ∧ precedes (fetched_ok ns name) is_list (trace_of (debug ns name img w))
  ∧ (∀ ns' sel r,
       PodsList ns' sel r ∈ trace_of (debug ns name img w) →
       ns' = ns ∧ ∃ d, DeploymentsGet ns name (inl d) ∈ trace_of (debug ns name img w)
                       ∧ sel = labelSelector_of d)
  ∧ precedes (observes_running ns) is_scale_down (trace_of (debug ns name img w))
  ∧ precedes (scaled_down_ok ns) is_pod_get (trace_of (debug ns name img w))
  ∧ (∀ ns' n r, PodsGet ns' n r ∈ trace_of (debug ns name img w) → ns' = ns ∧ n = name)
  ∧ precedes (observes_gone ns name) is_create (trace_of (debug ns name img w))
  ∧ precedes (λ e, ∃ n, created_ok ns n e) is_scale_up (trace_of (debug ns name img w))
  ∧ (∀ ns' n s r,
       DeploymentsUpdateScale ns' n s r ∈ trace_of (debug ns name img w) →
       (ScaleReplicas s = 0%Z ∨ ScaleReplicas s = 1%Z)
       ∧ (ScaleReplicas s = 1%Z →
          ∃ obj dbg, DeploymentsCreate ns obj (inl dbg) ∈ trace_of (debug ns name img w)
                     ∧ n = Name (DeploymentMeta dbg)))
  ∧ (∀ d, (deployments_get ns name w).1 = inl d →
          containers d ≠ [] → Labels (DeploymentMeta d) ≠ None → runRetries ≠ 0 →
          ∃ r, PodsList ns (labelSelector_of d) r ∈ trace_of (debug ns name img w))
  ∧ (∀ e, e ∈ trace_of (debug ns name img w) → observes_running ns e →
          Exists is_scale_down (trace_of (debug ns name img w)))
  ∧ (∀ e, e ∈ trace_of (debug ns name img w) → scaled_down_ok ns e →
          ∃ r, PodsGet ns name r ∈ trace_of (debug ns name img w))
  ∧ (∀ r, PodsGet ns name r ∈ trace_of (debug ns name img w) →
          IsNotFound (err_of r) = true →
          ∃ obj r', DeploymentsCreate ns obj r' ∈ trace_of (debug ns name img w))
  ∧ (∀ ns' obj dbg,
       DeploymentsCreate ns' obj (inl dbg) ∈ trace_of (debug ns name img w) →
       ∃ s r, DeploymentsUpdateScale ns (Name (DeploymentMeta dbg)) s r
              ∈ trace_of (debug ns name img w)
              ∧ ScaleReplicas s = 1%Z)
  ∧ (result_of (debug ns name img w) = Done None →
     ∃ pre e post, trace_of (debug ns name img w) = pre ++ e :: post
                   ∧ scaled_up_ok ns e ∧ Exists (observes_running ns) post)
  ∧ ends_at call_failed (trace_of (debug ns name img w))
  ∧ (∀ e, e ∈ trace_of (debug ns name img w) → call_failed e →
          ∃ msg, result_of (debug ns name img w) = Done (Some (errorString msg)))
  ∧ ((∀ e, e ∈ trace_of (debug ns name img w) → ¬ observes_running ns e) →
     Forall (λ e, ¬ is_write e) (trace_of (debug ns name img w))
     ∧ result_of (debug ns name img w) ≠ Done None)
  ∧ ((∃ r, PodsGet ns name r ∈ trace_of (debug ns name img w)) →
     (∀ ns' n r, PodsGet ns' n r ∈ trace_of (debug ns name img w) →
                 IsNotFound (err_of r) = false) →
     result_of (debug ns name img w)
     = Done (Some (errorString ("failed to delete pod " +:+ name)))
     ∧ Forall (λ e, ¬ is_create e) (trace_of (debug ns name img w))
     ∧ Forall (λ e, ¬ is_scale_up e) (trace_of (debug ns name img w)))
  ∧ (∀ e, e ∈ trace_of (debug ns name img w) → scaled_up_ok ns e →
          result_of (debug ns name img w) = Done None
          ∨ ∃ err, result_of (debug ns name img w) = Exit err).
Proof.
  pose proof (startDebug_path_of ns name img w) as Hpath. split_and!.
  - apply startDebug_trace_head.
  - by eapply path_fetched_before_list.
  - intros ns' sel r Hin. by eapply path_pods_list.
  - by eapply path_running_before_scale_down.
  - by eapply path_scaled_down_before_pod_get.
  - intros ns' n r Hin. by eapply path_pods_get.
  - by eapply path_gone_before_create.
  - by eapply path_created_before_scale_up.
  - intros ns' n s r Hin. split.
    + by eapply path_scale_updates.
    + intros Hs. by eapply path_scale_up.
  - intros d Hget Hcs Hl Hn. by apply startDebug_begins_wait.
  - intros e Hin Hobs. by eapply path_running_then_scale_down.
  - intros e Hin Hsd. by eapply path_scaled_down_then_pod_get.
  - intros r Hin Hnf. by eapply path_gone_create.
  - intros ns' obj dbg Hin. by eapply path_created_then_scale_up.
  - intros Hres. by eapply path_ready_shape.
  - by eapply path_failed_call_last.
  - intros e Hin Hf. by eapply path_failed_call_error.
  - intros Hnone. by eapply path_no_running_no_write.
  - intros Hex Hnone. by eapply path_deletion_exhausted.
  - intros e Hin Hup. by eapply path_scaled_up_result.
Qed.

(** C8: a run never looks the debug deployment up: its deployment gets
    are all of the target's name.  Once a get of the polled pod name
    is answered not-found, the run issues a create for the name with
    the suffix -debug, whatever the cluster holds.  When the API
    rejects that create, as it does for a name that exists, the run
    returns an error carrying the API's message and does nothing
    after the rejected call. *)
Theorem startDebug_not_idempotent ns name img (w : W) :
  (∀ ns' n r,
     DeploymentsGet ns' n r ∈ trace_of (debug ns name img w) →
     n = name ∧ n ≠ name +:+ "-debug")
  ∧ (∀ r,
       PodsGet ns name r ∈ trace_of (debug ns name img w) →
       IsNotFound (err_of r) = true →
       ∃ obj r', DeploymentsCreate ns obj r' ∈ trace_of (debug ns name img w)
                 ∧ Name (DeploymentMeta obj) = name +:+ "-debug")
  ∧ (∀ ns' obj e,
       DeploymentsCreate ns' obj (inr e) ∈ trace_of (debug ns name img w) →
       Name (DeploymentMeta obj) = name +:+ "-debug"
       ∧ (∃ msg, result_of (debug ns name img w) = Done (Some (errorString msg))
                 ∧ mentions msg (Error e))
       ∧ ∃ pre, trace_of (debug ns name img w) = pre ++ [DeploymentsCreate ns' obj (inr e)]).
Proof.
  pose proof (startDebug_path_of ns name img w) as Hpath. split_and!.
  - intros ns' n r Hin. destruct (path_deployments_get _ _ _ _ _ _ _ _ _ Hpath Hin) as [_ ->].
    split; [done |]. intros Heq. by apply (debug_name_fresh name).
  - intros r Hin Hnf.
    destruct (path_gone_create _ _ _ _ _ _ _ Hpath Hin Hnf) as (obj & r' & Hc).
    exists obj, r'. split; [done |].
    by destruct (path_create _ _ _ _ _ _ _ _ _ Hpath Hc) as (_ & d & labels & d' & _ & _ & ->).
  - intros ns' obj e Hin.
    destruct (path_create_failed_last _ _ _ _ _ _ _ _ _ Hpath Hin) as [Hres (pre & Htr & _)].
    split_and!.
    + by destruct (path_create _ _ _ _ _ _ _ _ _ Hpath Hin) as (_ & d & labels & d' & _ & _ & ->).
    + eexists. split; [exact Hres |]. do 3 apply mentions_app_l. apply mentions_head.
    + by exists pre.
Qed.

End Claims.

(** ** Further properties of the helpers and the workflow *)

Section Helpers.
Context {W : Type} `{!Interface W}.

Lemma waitForPodDeletion_from_gone n k ns podName (w : W) :
  (k < n)%nat →
  (∀ j, (j < k)%nat →
        IsNotFound (err_of (pods_get ns podName (after_attempts j ns podName w)).1) = false) →
  IsNotFound (err_of (pods_get ns podName (after_attempts k ns podName w)).1) = true →
  ∃ tr,
    waitForPodDeletion_from n ns podName w
    = (Done None, (pods_get ns podName (after_attempts k ns podName w)).2, tr)
    ∧ polled tr = replicate (S k) podName
    ∧ sleeps tr = replicate k (Second * 5)%Z.
Proof.
  revert k w. induction n as [|n IH]; intros k w Hk Hbefore Hgone; [lia |].
  simpl. unfold bind at 1, Pods_Get.
  destruct k as [|k]; simpl in Hgone; cbn [after_attempts].
  - destruct (pods_get ns podName w) as [r w1]; simpl in *. rewrite Hgone.
    unfold ret. eexists. split; [reflexivity |]. by split.
  - pose proof (Hbefore 0 ltac:(lia)) as H0. simpl in H0.
    destruct (pods_get ns podName w) as [r w1] eqn:Hget; simpl in *. rewrite H0.
    destruct (IH k (time_sleep (Second * 5) w1) ltac:(lia)) as (tr & Hrun & Hp & Hs).
    + intros j Hj. pose proof (Hbefore (S j) ltac:(lia)) as Hb. simpl in Hb.
      by rewrite Hget in Hb.
    + done.
    + unfold bind, logInfo, emit, time_Sleep. rewrite Hrun.
      eexists. split; [reflexivity |].
      split; [exact (f_equal (cons podName) Hp) | exact (f_equal (cons (Second * 5)%Z) Hs)].
Qed.

(** X1: the deletion wait returns nil at the first get answered
    not-found: if that is attempt k+1 of at most 60, there were exactly
    k+1 gets and k pauses of 5 s. *)
Theorem waitForPodDeletion_returns_when_gone k ns podName (w : W) :
  (k < 60)%nat →
  (∀ j, (j < k)%nat →
        IsNotFound (err_of (pods_get ns podName (after_attempts j ns podName w)).1) = false) →
  IsNotFound (err_of (pods_get ns podName (after_attempts k ns podName w)).1) = true →
  result_of (waitForPodDeletion ns podName w) = Done None
  ∧ state_of (waitForPodDeletion ns podName w)
    = (pods_get ns podName (after_attempts k ns podName w)).2
  ∧ polled (trace_of (waitForPodDeletion ns podName w)) = replicate (S k) podName
  ∧ sleeps (trace_of (waitForPodDeletion ns podName w)) = replicate k 5000000000%Z.
Proof.
  intros Hk Hbefore Hgone.
  destruct (waitForPodDeletion_from_gone 60 k ns podName w Hk Hbefore Hgone)
    as (tr & Hrun & Hp & Hs).
  unfold waitForPodDeletion. rewrite Hrun. by split_and!.
Qed.

Lemma waitForPodDeletion_from_bounded n ns podName (w : W) c w' tr :
  waitForPodDeletion_from n ns podName w = (c, w', tr) →
  (∃ err, c = Done err)
  ∧ (length (polled tr) ≤ n)%nat
  ∧ (length (sleeps tr) ≤ length (polled tr))%nat
  ∧ Forall (λ p, p = podName) (polled tr)
  ∧ Forall (λ d, d = (Second * 5)%Z) (sleeps tr).
Proof.
  revert w c w' tr. induction n as [|n IH]; intros w c w' tr; simpl.
  - intros [= <- <- <-]. split_and!; first [by eexists | done | simpl; lia].
  - unfold bind at 1, Pods_Get. destruct (pods_get ns podName w) as [r w1].
    destruct (IsNotFound (err_of r)).
    + intros [= <- <- <-].
      change (polled [PodsGet ns podName r]) with [podName].
      change (sleeps [PodsGet ns podName r]) with (@nil Z).
      split_and!; first [by eexists | done | simpl; lia | by repeat constructor].
    + unfold bind, logInfo, emit, time_Sleep.
      destruct (waitForPodDeletion_from n ns podName (time_sleep (Second * 5) w1))
        as [[c2 w2] t2] eqn:Hn.
      intros [= <- <- <-].
      destruct (IH _ _ _ _ Hn) as (Hres & Hlen & Hsl & Hp & Hs).
      change (polled (_ :: _ :: _ :: t2)) with (podName :: polled t2).
      change (sleeps (_ :: _ :: _ :: t2)) with ((Second * 5)%Z :: sleeps t2).
      split_and!; first [done | simpl; lia | by constructor].
Qed.

(** X2: whatever the API answers, the deletion wait returns (nil or an
    error, never a panic or an exit) after at most 60 gets, all of the
    given pod name, with pauses of exactly 5 s, at most one per get,
    and it issues no other call. *)
Theorem waitForPodDeletion_bounded ns podName (w : W) :
  (∃ err, result_of (waitForPodDeletion ns podName w) = Done err)
  ∧ (length (polled (trace_of (waitForPodDeletion ns podName w))) ≤ 60)%nat
  ∧ (length (sleeps (trace_of (waitForPodDeletion ns podName w)))
     ≤ length (polled (trace_of (waitForPodDeletion ns podName w))))%nat
  ∧ Forall (λ p, p = podName) (polled (trace_of (waitForPodDeletion ns podName w)))
  ∧ Forall (λ d, d = 5000000000%Z) (sleeps (trace_of (waitForPodDeletion ns podName w)))
  ∧ Forall (deletion_poll ns podName) (trace_of (waitForPodDeletion ns podName w)).
Proof.
  destruct (waitForPodDeletion ns podName w) as [[c w'] tr] eqn:Hrun.
  unfold waitForPodDeletion in Hrun.
  destruct (waitForPodDeletion_from_bounded _ _ _ _ _ _ _ Hrun) as (H1 & H2 & H3 & H4 & H5).
  apply waitForPodDeletion_from_run in Hrun as [Hall _].
  by split_and!.
Qed.

(** X3: the replica count [SetDeploymentScale] sends is the count
    truncated to 32 bits: always in the int32 range, congruent to the
    count modulo 2^32, and the count itself when that fits. *)
Theorem SetDeploymentScale_sends_int32 ns name (n : Z) (w : W) :
  ∃ s r,
    trace_of (SetDeploymentScale ns name n w) = [DeploymentsUpdateScale ns name s r]
    ∧ Name (ScaleMeta s) = name ∧ Namespace (ScaleMeta s) = ns
    ∧ (-2147483648 ≤ ScaleReplicas s < 2147483648)%Z
    ∧ ((ScaleReplicas s - n) `mod` 4294967296 = 0)%Z
    ∧ ((-2147483648 ≤ n < 2147483648)%Z → ScaleReplicas s = n).
Proof.
  rewrite SetDeploymentScale_run. unfold trace_of, scale_call; simpl.
  eexists _, _. split; [reflexivity |]. simpl. unfold int32.
  split_and!; try done.
  - pose proof (Z.mod_pos_bound (n + 2147483648) 4294967296 ltac:(lia)). lia.
  - pose proof (Z.mod_pos_bound (n + 2147483648) 4294967296 ltac:(lia)). lia.
  - replace ((n + 2147483648) `mod` 4294967296 - 2147483648 - n)%Z
      with ((n + 2147483648) `mod` 4294967296 - (n + 2147483648))%Z by lia.
    rewrite Zminus_mod, Zmod_mod, <- Zminus_mod, Z.sub_diag. done.
  - intros Hn. rewrite Z.mod_small by lia. lia.
Qed.

End Helpers.

Section Workflow.
Context {W : Type} `{!Interface W}.
Variable Deployment_String : Deployment → string.
Variable runRetries : nat.
Variable runInterval : Z.

Local Abbreviation debug := (startDebug Deployment_String runRetries runInterval).

Lemma startDebug_fetched ns name img (w : W) ns' n r :
  DeploymentsGet ns' n r ∈ trace_of (debug ns name img w) →
  r = (deployments_get ns name w).1.
Proof.
  intros Hin. pose proof (startDebug_path_of Deployment_String runRetries runInterval
                            ns name img w) as Hpath.
  destruct (path_get_second _ _ _ _ _ _ _ _ _ Hpath Hin) as [rest Htr].
  destruct (startDebug_trace_head Deployment_String runRetries runInterval ns name img w)
    as [rest' Hhead].
  rewrite Hhead in Htr. by injection Htr as _ _ <- _.
Qed.

(** X4: the deployment a run creates carries the labels of the fetched
    deployment with ceph.rook.io/do-not-reconcile set to true: that
    key reads true and every other key reads as in the original. *)
Theorem startDebug_debug_labels ns name img (w : W) ns' obj r :
  DeploymentsCreate ns' obj r ∈ trace_of (debug ns name img w) →
  ∃ d m labels,
    (deployments_get ns name w).1 = inl d
    ∧ Labels (DeploymentMeta d) = Some m
    ∧ Labels (DeploymentMeta obj) = Some labels
    ∧ labels !! "ceph.rook.io/do-not-reconcile" = Some "true"
    ∧ ∀ k, k ≠ "ceph.rook.io/do-not-reconcile" → labels !! k = m !! k.
Proof.
  intros Hin. pose proof (startDebug_path_of Deployment_String runRetries runInterval
                            ns name img w) as Hpath.
  destruct (path_create _ _ _ _ _ _ _ _ _ Hpath Hin)
    as (-> & d & labels & d' & Hget & (c0 & cs & m & Hcs & Hl & -> & ->) & ->).
  apply startDebug_fetched in Hget.
  exists d, m, (<["ceph.rook.io/do-not-reconcile" := "true"]> m).
  split_and!; [done | done | done | apply lookup_insert_eq |].
  intros k Hk. by apply lookup_insert_ne.
Qed.

(** X5: the deployment a run creates has the spec of the fetched
    deployment apart from the first container: the same replica
    count, the same template metadata and hence the same
    daemon-type/id selector, and the same number of containers. *)
Theorem startDebug_debug_spec ns name img (w : W) ns' obj r :
  DeploymentsCreate ns' obj r ∈ trace_of (debug ns name img w) →
  ∃ d,
    (deployments_get ns name w).1 = inl d
    ∧ Replicas (Spec obj) = Replicas (Spec d)
    ∧ TemplateMeta (Template (Spec obj)) = TemplateMeta (Template (Spec d))
    ∧ labelSelector_of obj = labelSelector_of d
    ∧ length (containers obj) = length (containers d)
    ∧ (ContainerName <$> containers obj) = (ContainerName <$> containers d).
Proof.
  intros Hin. pose proof (startDebug_path_of Deployment_String runRetries runInterval
                            ns name img w) as Hpath.
  destruct (path_create _ _ _ _ _ _ _ _ _ Hpath Hin)
    as (-> & d & labels & d' & Hget & (c0 & cs & m & Hcs & Hl & -> & ->) & ->).
  apply startDebug_fetched in Hget. exists d.
  split_and!; try done; unfold containers in *; simpl; by rewrite Hcs.
Qed.

(** X6: a fetched deployment without containers or with a nil label map
    makes the run panic during the in-memory mutation, before any pod
    is listed or polled and before any write; which runtime error it
    is follows the order of the statements. *)
Theorem startDebug_malformed_panics ns name img (w : W) d :
  (deployments_get ns name w).1 = inl d →
  containers d = [] ∨ Labels (DeploymentMeta d) = None →
  result_of (debug ns name img w)
  = Panic (match containers d, Labels (DeploymentMeta d) with
           | [], Some _ => "index out of range [0] with length 0"
           | [], None => if bool_decide (img ≠ "")
                         then "index out of range [0] with length 0"
                         else "assignment to entry in nil map"
           | _ :: _, _ => "assignment to entry in nil map"
           end)
  ∧ state_of (debug ns name img w) = (deployments_get ns name w).2
  ∧ Forall (λ e, ¬ is_list e ∧ ¬ is_pod_get e ∧ ¬ is_write e) (trace_of (debug ns name img w)).
Proof.
  intros Hget Hbad.
  destruct (debug ns name img w) as [[c w'] tr] eqn:Hrun. unfold startDebug in Hrun.
  apply bind_inv in Hrun as [(r & w1 & t0 & k & Hg & H & ->) | [(? & Hg & ->) | (? & Hg & ->)]];
    rewrite GetDeployment_run in Hg; try discriminate Hg.
  rewrite Hget in Hg. injection Hg as <- <- <-.
  destruct (mutateDeployment_panics img d (deployments_get ns name w).2 Hbad)
    as (why & tm & Hm & Hinfo).
  rewrite (bind_panic _ _ _ _ _ _ Hm) in H. injection H as <- <- <-.
  unfold result_of, state_of, trace_of; simpl. split_and!; [| done |].
  - f_equal. clear -Hm Hbad. destruct d as [[n nsp l] [rp [tmeta [cs]]]].
    unfold containers in *; simpl in *. unfold mutateDeployment in Hm.
    destruct Hbad as [-> | ->]; destruct (bool_decide (img ≠ "")); try destruct l;
      try destruct cs; injection Hm as <- _; reflexivity.
  - do 3 (apply Forall_cons; split; [split_and!; by intros [] |]).
    eapply Forall_impl; [exact Hinfo |]. intros e He. destruct e; try done.
    split_and!; by intros [].
Qed.

Lemma mutated_again img d labels d' (w : W) :
  mutated img d labels d' →
  mutateDeployment img d' w = (Done (labels, d'), w, mutation_log img).
Proof.
  intros (c0 & cs & m & Hcs & Hl & -> & ->).
  rewrite (mutateDeployment_ok img _ (debugContainer img c0) cs
             (<["ceph.rook.io/do-not-reconcile" := "true"]> m) w); [| done | done].
  rewrite insert_insert_eq. do 2 f_equal.
  unfold set_DeploymentLabels, set_containers, debugContainer; simpl.
  by destruct (bool_decide (img ≠ "")).
Qed.

(** X10: the in-memory mutation is idempotent: applied to its own result
    it returns the same labels and the same deployment. *)
Theorem mutateDeployment_idempotent img d (w w1 : W) labels d' tr :
  mutateDeployment img d w = (Done (labels, d'), w1, tr) →
  mutateDeployment img d' w1 = (Done (labels, d'), w1, tr).
Proof.
  intros Hrun.
  destruct (containers d) as [|c0 cs] eqn:Hcs.
  { destruct (mutateDeployment_panics img d w (or_introl Hcs)) as (? & ? & Hp & _).
    rewrite Hp in Hrun. discriminate Hrun. }
  destruct (Labels (DeploymentMeta d)) as [m|] eqn:Hl.
  2: { destruct (mutateDeployment_panics img d w (or_intror Hl)) as (? & ? & Hp & _).
       rewrite Hp in Hrun. discriminate Hrun. }
  rewrite (mutateDeployment_ok img d c0 cs m w Hcs Hl) in Hrun.
  injection Hrun as <- <- <- <-. apply (mutated_again img d). by exists c0, cs, m.
Qed.

(** X7: when the template of the fetched deployment has no label map,
    or one without the two daemon keys, the lookups yield empty
    strings: every listing of the run uses the selector with both
    values empty, and missing labels are no error. *)
Theorem startDebug_selector_missing_labels ns name img (w : W) d :
  (deployments_get ns name w).1 = inl d →
  (Labels (TemplateMeta (Template (Spec d))) = None
   ∨ ∃ m, Labels (TemplateMeta (Template (Spec d))) = Some m
          ∧ m !! "ceph_daemon_type" = None ∧ m !! "ceph_daemon_id" = None) →
  ∀ ns' sel r,
    PodsList ns' sel r ∈ trace_of (debug ns name img w) →
    sel = "ceph_daemon_type=,ceph_daemon_id=".
Proof.
  intros Hget Hlabels ns' sel r Hin.
  pose proof (startDebug_path_of Deployment_String runRetries runInterval
                ns name img w) as Hpath.
  destruct (path_pods_list _ _ _ _ _ _ _ _ _ Hpath Hin) as (_ & d0 & Hg & ->).
  apply startDebug_fetched in Hg. rewrite Hget in Hg. injection Hg as ->.
  unfold labelSelector_of.
  destruct Hlabels as [-> | (m & -> & Hty & Hid)]; simpl; [done |].
  by rewrite Hty, Hid.
Qed.

(** X8: a run issues at most one create, always for the name with the
    suffix -debug and so never for the target itself, and its scale
    updates are none, one to 0, or one to 0 followed by one to 1. *)
Theorem startDebug_write_budget ns name img (w : W) :
  (length (creates (trace_of (debug ns name img w))) ≤ 1)%nat
  ∧ Forall (λ obj, Name (DeploymentMeta obj) = name +:+ "-debug"
                   ∧ Name (DeploymentMeta obj) ≠ name)
      (creates (trace_of (debug ns name img w)))
  ∧ (scale_updates (trace_of (debug ns name img w)) = []
     ∨ (∃ n, scale_updates (trace_of (debug ns name img w)) = [(n, 0%Z)])
     ∨ (∃ n m, scale_updates (trace_of (debug ns name img w)) = [(n, 0%Z); (m, 1%Z)])).
Proof.
  pose proof (startDebug_path_of Deployment_String runRetries runInterval
                ns name img w) as Hpath.
  destruct (path_write_budget _ _ _ _ _ _ Hpath) as (Hlen & Hnames & Hscale).
  split_and!; [done | | done].
  eapply Forall_impl; [exact Hnames |]. intros obj Hobj. split; [done |].
  rewrite Hobj. apply debug_name_fresh.
Qed.

(** X9: [StartDebug] does what [startDebug] does and turns every error
    it returns into a fatal exit with that error; it returns only
    when [startDebug] returned nil, that is after an accepted scale
    update to 1 that was followed by a listing showing a Running
    pod. *)
Theorem StartDebug_exits_on_error ns name img (w : W) :
  trace_of (StartDebug Deployment_String runRetries runInterval ns name img w)
  = trace_of (debug ns name img w)
  ∧ state_of (StartDebug Deployment_String runRetries runInterval ns name img w)
    = state_of (debug ns name img w)
  ∧ (∀ err, result_of (debug ns name img w) = Done (Some err) →
            result_of (StartDebug Deployment_String runRetries runInterval ns name img w)
            = Exit err)
  ∧ (result_of (StartDebug Deployment_String runRetries runInterval ns name img w) = Done tt →
     result_of (debug ns name img w) = Done None
     ∧ ∃ pre e post,
         trace_of (StartDebug Deployment_String runRetries runInterval ns name img w)
         = pre ++ e :: post
         ∧ scaled_up_ok ns e ∧ Exists (observes_running ns) post).
Proof.
  pose proof (startDebug_path_of Deployment_String runRetries runInterval
                ns name img w) as Hpath.
  unfold StartDebug, bind.
  destruct (debug ns name img w) as [[[[err|]|why|err] w'] tr];
    unfold result_of, state_of, trace_of in *; simpl in *;
    (split_and!; [by rewrite ?app_nil_r | done | by intros ? [= <-] | ]);
    intros Hres; try discriminate Hres.
  split; [done |]. rewrite app_nil_r. by eapply path_ready_shape.
Qed.

End Workflow.

(** ** Runs on the in-memory server *)

Lemma elem_of_creates ns obj r tr : DeploymentsCreate ns obj r ∈ tr → obj ∈ creates tr.
Proof. intros Hin. apply list_elem_of_omap. by exists (DeploymentsCreate ns obj r). Qed.

Ltac in_run :=
  vm_compute; solve [repeat first [apply list_elem_of_here | apply list_elem_of_further]].

(** The whole of a successful run: the monitor is fetched, its pod is
    seen Running, the original is scaled to 0, the pod name polled is
    the deployment's, the debug deployment is created and scaled to 1. *)
Example debug_mon_a :
  Fake.debug "rook-ceph-mon-a" "quay.io/ceph/ceph:v18" Fake.cluster0
  = (Done None,
     {| Fake.clusterDeployments :=
          [Fake.set_Replicas 0 Fake.monDeployment;
           Fake.debugObject [Fake.asleep "mon" "quay.io/ceph/ceph:v18" None; Fake.logCollector]];
        Fake.clusterPods := [Fake.monPod];
        Fake.clock := 0 |},
     [Info "fetching the deployment %s to be running\n" ["rook-ceph-mon-a"];
      DeploymentsGet "rook-ceph" "rook-ceph-mon-a" (inl Fake.monDeployment);
      Info "deployment %s exists\n" ["rook-ceph-mon-a"];
      Info "setting debug image to %s\n" ["quay.io/ceph/ceph:v18"];
      Info "setting debug command to main container" [];
      PodsList "rook-ceph" "ceph_daemon_type=mon,ceph_daemon_id=a" (inl [Fake.monPod]);
      scale_call "rook-ceph" "rook-ceph-mon-a" 0
        (inl {| ScaleMeta := {| Name := "rook-ceph-mon-a"; Namespace := "rook-ceph";
                                Labels := None |};
                ScaleReplicas := 0 |});
      Info "deployment %s scaled down\n" ["rook-ceph-mon-a"];
      Info "waiting for the deployment pod %s to be deleted\n"
        ["rook-ceph-mon-a-5d8f7c9b4-x7k2p"];
      PodsGet "rook-ceph" "rook-ceph-mon-a" (inr (Fake.notFound "pods" "rook-ceph-mon-a"));
      DeploymentsCreate "rook-ceph"
        (Fake.debugObject [Fake.asleep "mon" "quay.io/ceph/ceph:v18" None; Fake.logCollector])
        (inl (Fake.debugObject
                [Fake.asleep "mon" "quay.io/ceph/ceph:v18" None; Fake.logCollector]));
      Info "ensure the debug deployment %s is scaled up\n" ["rook-ceph-mon-a"];
      scale_call "rook-ceph" "rook-ceph-mon-a-debug" 1
        (inl {| ScaleMeta := {| Name := "rook-ceph-mon-a-debug"; Namespace := "rook-ceph";
                                Labels := None |};
                ScaleReplicas := 1 |});
      PodsList "rook-ceph" "ceph_daemon_type=mon,ceph_daemon_id=a" (inl [Fake.monPod]);
      Info "pod %s is ready for debugging" ["rook-ceph-mon-a-5d8f7c9b4-x7k2p"]]).
Proof. vm_compute. reflexivity. Qed.

(** C1 as stated fails: the monitor container below has a readiness
    probe; the run succeeds and creates one deployment, and no
    deployment it creates has a first container with all probes unset. *)
Lemma debug_deployment_keeps_readiness_probe :
  result_of (Fake.debug "rook-ceph-mon-a" "quay.io/ceph/ceph:v18" Fake.clusterProbed)
  = Done None
  ∧ creates (trace_of (Fake.debug "rook-ceph-mon-a" "quay.io/ceph/ceph:v18" Fake.clusterProbed))
    = [Fake.debugObject
         [Fake.asleep "mon" "quay.io/ceph/ceph:v18" (Some {| PeriodSeconds := 5 |})]]
  ∧ ¬ ∃ ns obj r c0 cs,
        DeploymentsCreate ns obj r
        ∈ trace_of (Fake.debug "rook-ceph-mon-a" "quay.io/ceph/ceph:v18" Fake.clusterProbed)
        ∧ containers obj = c0 :: cs
        ∧ probes_unset c0.
Proof.
  assert (Hcreates :
    creates (trace_of (Fake.debug "rook-ceph-mon-a" "quay.io/ceph/ceph:v18" Fake.clusterProbed))
    = [Fake.debugObject
         [Fake.asleep "mon" "quay.io/ceph/ceph:v18" (Some {| PeriodSeconds := 5 |})]])
    by (vm_compute; reflexivity).
  split_and!; [vm_compute; reflexivity | done |].
  intros (ns & obj & r & c0 & cs & Hin & Hcs & (_ & Hready & _)).
  apply elem_of_creates in Hin. rewrite Hcreates in Hin.
  apply list_elem_of_singleton in Hin as ->.
  injection Hcs as <- _. discriminate Hready.
Qed.

Lemma startDebug_creates_debug_deployment_witness :
  "quay.io/ceph/ceph:v18" ≠ ""
  ∧ result_of (Fake.debug "rook-ceph-mon-a" "quay.io/ceph/ceph:v18" Fake.cluster0) = Done None
  ∧ ∃ d c0 cs,
      DeploymentsGet "rook-ceph" "rook-ceph-mon-a" (inl d)
      ∈ trace_of (Fake.debug "rook-ceph-mon-a" "quay.io/ceph/ceph:v18" Fake.cluster0)
      ∧ containers d = c0 :: cs
      ∧ containers
          (Fake.debugObject [Fake.asleep "mon" "quay.io/ceph/ceph:v18" None; Fake.logCollector])
        = {| ContainerName := ContainerName c0;
             Image := "quay.io/ceph/ceph:v18";
             Command := ["sleep"; "infinity"];
             Args := [];
             LivenessProbe := None;
             ReadinessProbe := ReadinessProbe c0;
             StartupProbe := None |} :: cs.
Proof.
  assert (Himg : "quay.io/ceph/ceph:v18" ≠ "") by discriminate.
  split; [exact Himg |]. split; [vm_compute; reflexivity |].
  apply (proj2 (startDebug_creates_debug_deployment Fake.show 60 (Second * 5)
                  "rook-ceph" "rook-ceph-mon-a" "quay.io/ceph/ceph:v18" Fake.cluster0 Himg)
           "rook-ceph"
           (Fake.debugObject [Fake.asleep "mon" "quay.io/ceph/ceph:v18" None; Fake.logCollector])
           (inl (Fake.debugObject
                   [Fake.asleep "mon" "quay.io/ceph/ceph:v18" None; Fake.logCollector]))).
  in_run.
Defined.

(** C2: on the cluster below the pod found in step 3 is
    rook-ceph-mon-a-5d8f7c9b4-x7k2p and the log line names it, but the
    only pod name the run polls is the deployment's; that get is
    answered not-found at once, so the run creates the debug
    deployment without a pause while the pod still exists. *)
Theorem startDebug_polls_deployment_name :
  result_of (Fake.debug "rook-ceph-mon-a" "" Fake.cluster0) = Done None
  ∧ Info "waiting for the deployment pod %s to be deleted\n" ["rook-ceph-mon-a-5d8f7c9b4-x7k2p"]
    ∈ trace_of (Fake.debug "rook-ceph-mon-a" "" Fake.cluster0)
  ∧ polled (trace_of (Fake.debug "rook-ceph-mon-a" "" Fake.cluster0)) = ["rook-ceph-mon-a"]
  ∧ sleeps (trace_of (Fake.debug "rook-ceph-mon-a" "" Fake.cluster0)) = []
  ∧ creates (trace_of (Fake.debug "rook-ceph-mon-a" "" Fake.cluster0))
    = [Fake.debugObject [Fake.asleep "mon" "quay.io/ceph/ceph:v17" None; Fake.logCollector]]
  ∧ Fake.clusterPods (state_of (Fake.debug "rook-ceph-mon-a" "" Fake.cluster0))
    = [Fake.monPod]
  ∧ Name (PodMeta Fake.monPod) = "rook-ceph-mon-a-5d8f7c9b4-x7k2p".
Proof. split_and!; try (vm_compute; reflexivity). in_run. Qed.

Lemma startDebug_missing_deployment_witness :
  ∃ msg,
    result_of (Fake.debug "rook-ceph-mon-z" "" Fake.cluster0) = Done (Some (errorString msg))
    ∧ mentions msg "rook-ceph-mon-z"
    ∧ state_of (Fake.debug "rook-ceph-mon-z" "" Fake.cluster0) = Fake.cluster0
    ∧ trace_of (Fake.debug "rook-ceph-mon-z" "" Fake.cluster0)
      = [Info "fetching the deployment %s to be running\n" ["rook-ceph-mon-z"];
         DeploymentsGet "rook-ceph" "rook-ceph-mon-z"
           (inr (Fake.notFound "deployments.apps" "rook-ceph-mon-z"))]
    ∧ Forall (λ ev, ¬ is_write ev) (trace_of (Fake.debug "rook-ceph-mon-z" "" Fake.cluster0)).
Proof.
  apply (startDebug_missing_deployment Fake.show 60 (Second * 5)
           "rook-ceph" "rook-ceph-mon-z" "" Fake.cluster0).
  reflexivity.
Defined.

Lemma waitForPodDeletion_exhausts_witness :
  ∃ rs msg,
    result_of (waitForPodDeletion "rook-ceph" "rook-ceph-mon-a-5d8f7c9b4-x7k2p" Fake.cluster0)
    = Done (Some (errorString msg))
    ∧ mentions msg "rook-ceph-mon-a-5d8f7c9b4-x7k2p"
    ∧ trace_of (waitForPodDeletion "rook-ceph" "rook-ceph-mon-a-5d8f7c9b4-x7k2p" Fake.cluster0)
      = deletion_attempts "rook-ceph" "rook-ceph-mon-a-5d8f7c9b4-x7k2p" rs
    ∧ length rs = 60
    ∧ polled (trace_of (waitForPodDeletion "rook-ceph" "rook-ceph-mon-a-5d8f7c9b4-x7k2p"
                          Fake.cluster0))
      = replicate 60 "rook-ceph-mon-a-5d8f7c9b4-x7k2p"
    ∧ sleeps (trace_of (waitForPodDeletion "rook-ceph" "rook-ceph-mon-a-5d8f7c9b4-x7k2p"
                          Fake.cluster0))
      = replicate 60 5000000000%Z.
Proof.
  apply (waitForPodDeletion_exhausts (λ c, Fake.clusterPods c = [Fake.monPod])).
  - intros c Hc. simpl. unfold Fake.get_pod. rewrite Hc. split; [reflexivity | exact Hc].
  - reflexivity.
Defined.

Lemma startDebug_empty_image_keeps_image_witness :
  ∃ d c0 c0' cs,
    DeploymentsGet "rook-ceph" "rook-ceph-mon-a" (inl d)
    ∈ trace_of (Fake.debug "rook-ceph-mon-a" "" Fake.cluster0)
    ∧ containers d = c0 :: cs
    ∧ containers
        (Fake.debugObject [Fake.asleep "mon" "quay.io/ceph/ceph:v17" None; Fake.logCollector])
      = c0' :: cs
    ∧ ("" = "" → Image c0' = Image c0)
    ∧ ("" ≠ "" → Image c0' = "").
Proof.
  apply (startDebug_empty_image_keeps_image Fake.show 60 (Second * 5)
           "rook-ceph" "rook-ceph-mon-a" "" Fake.cluster0 "rook-ceph"
           (Fake.debugObject [Fake.asleep "mon" "quay.io/ceph/ceph:v17" None; Fake.logCollector])
           (inl (Fake.debugObject
                   [Fake.asleep "mon" "quay.io/ceph/ceph:v17" None; Fake.logCollector]))).
  in_run.
Defined.

Lemma mutateDeployment_in_bounds_witness :
  (∃ labels d' tr,
     mutateDeployment "" Fake.monDeployment Fake.cluster0 = (Done (labels, d'), Fake.cluster0, tr)
     ∧ length (containers d') = length (containers Fake.monDeployment)
     ∧ ∀ i, containers d' !! S i = containers Fake.monDeployment !! S i)
  ∧ ((deployments_get "rook-ceph" "rook-ceph-mon-a" Fake.cluster0).1 = inl Fake.monDeployment →
     ∀ why, result_of (Fake.debug "rook-ceph-mon-a" "" Fake.cluster0) ≠ Panic why).
Proof.
  apply (mutateDeployment_in_bounds Fake.show 60 (Second * 5)
           "rook-ceph" "rook-ceph-mon-a" "" Fake.cluster0 Fake.monDeployment);
    discriminate.
Defined.

Lemma startDebug_create_failure_no_rollback_witness :
  DeploymentsCreate "rook-ceph"
    (Fake.debugObject [Fake.asleep "mon" "quay.io/ceph/ceph:v17" None; Fake.logCollector])
    (inr (Fake.alreadyExists "deployments.apps" "rook-ceph-mon-a-debug"))
  ∈ trace_of (Fake.debug "rook-ceph-mon-a" "" Fake.clusterDebugged)
  ∧ (∃ msg, result_of (Fake.debug "rook-ceph-mon-a" "" Fake.clusterDebugged)
            = Done (Some (errorString msg))
            ∧ mentions msg
                (Error (Fake.alreadyExists "deployments.apps" "rook-ceph-mon-a-debug")))
  ∧ (∃ pre, trace_of (Fake.debug "rook-ceph-mon-a" "" Fake.clusterDebugged)
            = pre ++ [DeploymentsCreate "rook-ceph"
                        (Fake.debugObject
                           [Fake.asleep "mon" "quay.io/ceph/ceph:v17" None; Fake.logCollector])
                        (inr (Fake.alreadyExists "deployments.apps" "rook-ceph-mon-a-debug"))]
            ∧ Exists (scaled_down_ok "rook-ceph") pre)
  ∧ (∀ ns'' n s r,
       DeploymentsUpdateScale ns'' n s r
       ∈ trace_of (Fake.debug "rook-ceph-mon-a" "" Fake.clusterDebugged) →
       ScaleReplicas s = 0%Z ∧ ∃ s', r = inl s').
Proof.
  assert (Hin :
    DeploymentsCreate "rook-ceph"
      (Fake.debugObject [Fake.asleep "mon" "quay.io/ceph/ceph:v17" None; Fake.logCollector])
      (inr (Fake.alreadyExists "deployments.apps" "rook-ceph-mon-a-debug"))
    ∈ trace_of (Fake.debug "rook-ceph-mon-a" "" Fake.clusterDebugged)) by in_run.
  split; [exact Hin |].
  exact (startDebug_create_failure_no_rollback Fake.show 60 (Second * 5)
           "rook-ceph" "rook-ceph-mon-a" "" Fake.clusterDebugged _ _ _ Hin).
Defined.

(** A second run, on the cluster the first run left behind: the debug
    deployment exists, the get of the polled pod name is answered
    not-found, and the create (now of a copy of the scaled-down
    original) is rejected as a name conflict. *)
Lemma startDebug_not_idempotent_witness :
  result_of (Fake.debug "rook-ceph-mon-a" "" Fake.cluster0) = Done None
  ∧ PodsGet "rook-ceph" "rook-ceph-mon-a" (inr (Fake.notFound "pods" "rook-ceph-mon-a"))
    ∈ trace_of (Fake.debug "rook-ceph-mon-a" ""
                  (state_of (Fake.debug "rook-ceph-mon-a" "" Fake.cluster0)))
  ∧ DeploymentsCreate "rook-ceph"
      (Fake.set_Replicas 0
         (Fake.debugObject [Fake.asleep "mon" "quay.io/ceph/ceph:v17" None; Fake.logCollector]))
      (inr (Fake.alreadyExists "deployments.apps" "rook-ceph-mon-a-debug"))
    ∈ trace_of (Fake.debug "rook-ceph-mon-a" ""
                  (state_of (Fake.debug "rook-ceph-mon-a" "" Fake.cluster0)))
  ∧ ∃ msg,
      result_of (Fake.debug "rook-ceph-mon-a" ""
                   (state_of (Fake.debug "rook-ceph-mon-a" "" Fake.cluster0)))
      = Done (Some (errorString msg))
      ∧ mentions msg (Error (Fake.alreadyExists "deployments.apps" "rook-ceph-mon-a-debug")).
Proof.
  split; [vm_compute; reflexivity |]. split; [in_run |].
  assert (Hin :
    DeploymentsCreate "rook-ceph"
      (Fake.set_Replicas 0
         (Fake.debugObject [Fake.asleep "mon" "quay.io/ceph/ceph:v17" None; Fake.logCollector]))
      (inr (Fake.alreadyExists "deployments.apps" "rook-ceph-mon-a-debug"))
    ∈ trace_of (Fake.debug "rook-ceph-mon-a" ""
                  (state_of (Fake.debug "rook-ceph-mon-a" "" Fake.cluster0)))) by in_run.
  split; [exact Hin |].
  exact (proj1 (proj2 (proj2 (proj2 (startDebug_not_idempotent Fake.show 60 (Second * 5)
           "rook-ceph" "rook-ceph-mon-a" ""
           (state_of (Fake.debug "rook-ceph-mon-a" "" Fake.cluster0)))) _ _ _ Hin))).
Defined.

(** C7 as stated fails: the API refuses the first pod get of the
    deletion wait with an error that is not not-found; the run does not
    abort: it polls again, creates the debug deployment and returns
    nil. *)
Lemma startDebug_continues_after_failed_pod_get :
  result_of (startDebug Fake.show 60 (Second * 5) "rook-ceph" "rook-ceph-mon-a" ""
               (Fake.cluster0, 1))
  = Done None
  ∧ trace_of (startDebug Fake.show 60 (Second * 5) "rook-ceph" "rook-ceph-mon-a" ""
                (Fake.cluster0, 1)) !! 8
    = Some (PodsGet "rook-ceph" "rook-ceph-mon-a" (inr Flaky.refused))
  ∧ IsNotFound (Some Flaky.refused) = false
  ∧ creates (drop 9 (trace_of (startDebug Fake.show 60 (Second * 5) "rook-ceph"
                                  "rook-ceph-mon-a" "" (Fake.cluster0, 1))))
    = [Fake.debugObject [Fake.asleep "mon" "quay.io/ceph/ceph:v17" None; Fake.logCollector]]
  ∧ polled (trace_of (startDebug Fake.show 60 (Second * 5) "rook-ceph" "rook-ceph-mon-a" ""
                        (Fake.cluster0, 1)))
    = ["rook-ceph-mon-a"; "rook-ceph-mon-a"].
Proof. split_and!; vm_compute; reflexivity. Qed.

(** The successful run of the monitor: the first wait is begun, and the
    run ends with an accepted scale update to 1 followed by a Running
    observation. *)
Lemma startDebug_step_order_witness :
  (deployments_get "rook-ceph" "rook-ceph-mon-a" Fake.cluster0).1 = inl Fake.monDeployment
  ∧ result_of (Fake.debug "rook-ceph-mon-a" "" Fake.cluster0) = Done None
  ∧ (∃ r, PodsList "rook-ceph" (labelSelector_of Fake.monDeployment) r
          ∈ trace_of (Fake.debug "rook-ceph-mon-a" "" Fake.cluster0))
  ∧ (∃ pre e post,
       trace_of (Fake.debug "rook-ceph-mon-a" "" Fake.cluster0) = pre ++ e :: post
       ∧ scaled_up_ok "rook-ceph" e ∧ Exists (observes_running "rook-ceph") post).
Proof.
  assert (Hget : (deployments_get "rook-ceph" "rook-ceph-mon-a" Fake.cluster0).1
                 = inl Fake.monDeployment) by reflexivity.
  assert (Hres : result_of (Fake.debug "rook-ceph-mon-a" "" Fake.cluster0) = Done None)
    by (vm_compute; reflexivity).
  destruct (startDebug_step_order Fake.show 60 (Second * 5)
              "rook-ceph" "rook-ceph-mon-a" "" Fake.cluster0)
    as (_ & _ & _ & _ & _ & _ & _ & _ & _ & Hbegin & _ & _ & _ & _ & Hready & _).
  split_and!; [exact Hget | exact Hres | | exact (Hready Hres)].
  apply (Hbegin Fake.monDeployment Hget); discriminate.
Defined.

Lemma waitForPodDeletion_returns_when_gone_witness :
  result_of (waitForPodDeletion "rook-ceph" "rook-ceph-osd-0-6f7d9c-h2k4m" 0%Z) = Done None
  ∧ state_of (waitForPodDeletion "rook-ceph" "rook-ceph-osd-0-6f7d9c-h2k4m" 0%Z)
    = (pods_get "rook-ceph" "rook-ceph-osd-0-6f7d9c-h2k4m"
         (after_attempts 3 "rook-ceph" "rook-ceph-osd-0-6f7d9c-h2k4m" 0%Z)).2
  ∧ polled (trace_of (waitForPodDeletion "rook-ceph" "rook-ceph-osd-0-6f7d9c-h2k4m" 0%Z))
    = replicate 4 "rook-ceph-osd-0-6f7d9c-h2k4m"
  ∧ sleeps (trace_of (waitForPodDeletion "rook-ceph" "rook-ceph-osd-0-6f7d9c-h2k4m" 0%Z))
    = replicate 3 5000000000%Z.
Proof.
  apply (waitForPodDeletion_returns_when_gone 3 "rook-ceph" "rook-ceph-osd-0-6f7d9c-h2k4m" 0%Z).
  - lia.
  - intros [|[|[|j]]] Hj; [reflexivity | reflexivity | reflexivity | lia].
  - reflexivity.
Defined.

Lemma startDebug_debug_labels_witness :
  ∃ d m labels,
    (deployments_get "rook-ceph" "rook-ceph-mon-a" Fake.cluster0).1 = inl d
    ∧ Labels (DeploymentMeta d) = Some m
    ∧ Labels (DeploymentMeta
                (Fake.debugObject
                   [Fake.asleep "mon" "quay.io/ceph/ceph:v17" None; Fake.logCollector]))
      = Some labels
    ∧ labels !! "ceph.rook.io/do-not-reconcile" = Some "true"
    ∧ ∀ k, k ≠ "ceph.rook.io/do-not-reconcile" → labels !! k = m !! k.
Proof.
  apply (startDebug_debug_labels Fake.show 60 (Second * 5)
           "rook-ceph" "rook-ceph-mon-a" "" Fake.cluster0 "rook-ceph"
           (Fake.debugObject [Fake.asleep "mon" "quay.io/ceph/ceph:v17" None; Fake.logCollector])
           (inl (Fake.debugObject
                   [Fake.asleep "mon" "quay.io/ceph/ceph:v17" None; Fake.logCollector]))).
  in_run.
Defined.

Lemma startDebug_debug_spec_witness :
  ∃ d,
    (deployments_get "rook-ceph" "rook-ceph-mon-a" Fake.cluster0).1 = inl d
    ∧ Replicas (Spec (Fake.debugObject
                        [Fake.asleep "mon" "quay.io/ceph/ceph:v17" None; Fake.logCollector]))
      = Replicas (Spec d)
    ∧ TemplateMeta (Template (Spec (Fake.debugObject
                        [Fake.asleep "mon" "quay.io/ceph/ceph:v17" None; Fake.logCollector])))
      = TemplateMeta (Template (Spec d))
    ∧ labelSelector_of (Fake.debugObject
                        [Fake.asleep "mon" "quay.io/ceph/ceph:v17" None; Fake.logCollector])
      = labelSelector_of d
    ∧ length (containers (Fake.debugObject
                        [Fake.asleep "mon" "quay.io/ceph/ceph:v17" None; Fake.logCollector]))
      = length (containers d)
    ∧ (ContainerName <$> containers (Fake.debugObject
                        [Fake.asleep "mon" "quay.io/ceph/ceph:v17" None; Fake.logCollector]))
      = (ContainerName <$> containers d).
Proof.
  apply (startDebug_debug_spec Fake.show 60 (Second * 5)
           "rook-ceph" "rook-ceph-mon-a" "" Fake.cluster0 "rook-ceph"
           (Fake.debugObject [Fake.asleep "mon" "quay.io/ceph/ceph:v17" None; Fake.logCollector])
           (inl (Fake.debugObject
                   [Fake.asleep "mon" "quay.io/ceph/ceph:v17" None; Fake.logCollector]))).
  in_run.
Defined.

Lemma startDebug_malformed_panics_witness :
  result_of (Fake.debug "rook-ceph-mon-b" "" Fake.clusterUnlabelled)
  = Panic "assignment to entry in nil map"
  ∧ state_of (Fake.debug "rook-ceph-mon-b" "" Fake.clusterUnlabelled)
    = Fake.clusterUnlabelled
  ∧ Forall (λ e, ¬ is_list e ∧ ¬ is_pod_get e ∧ ¬ is_write e)
      (trace_of (Fake.debug "rook-ceph-mon-b" "" Fake.clusterUnlabelled)).
Proof.
  exact (startDebug_malformed_panics Fake.show 60 (Second * 5)
           "rook-ceph" "rook-ceph-mon-b" "" Fake.clusterUnlabelled Fake.unlabelled
           eq_refl (or_intror eq_refl)).
Defined.

Lemma startDebug_selector_missing_labels_witness :
  PodsList "rook-ceph" "ceph_daemon_type=,ceph_daemon_id=" (inl [])
  ∈ trace_of (Fake.debug "rook-ceph-mon-c" "" Fake.clusterBare)
  ∧ ∀ ns' sel r,
      PodsList ns' sel r ∈ trace_of (Fake.debug "rook-ceph-mon-c" "" Fake.clusterBare) →
      sel = "ceph_daemon_type=,ceph_daemon_id=".
Proof.
  split; [in_run |].
  apply (startDebug_selector_missing_labels Fake.show 60 (Second * 5)
           "rook-ceph" "rook-ceph-mon-c" "" Fake.clusterBare Fake.bareTemplate).
  - reflexivity.
  - left. reflexivity.
Defined.

Lemma mutateDeployment_idempotent_witness :
  ∃ labels d' tr,
    mutateDeployment "quay.io/ceph/ceph:v18" Fake.monDeployment Fake.cluster0
    = (Done (labels, d'), Fake.cluster0, tr)
    ∧ mutateDeployment "quay.io/ceph/ceph:v18" d' Fake.cluster0
      = (Done (labels, d'), Fake.cluster0, tr).
Proof.
  eexists _, _, _.
  assert (Hrun : mutateDeployment "quay.io/ceph/ceph:v18" Fake.monDeployment Fake.cluster0
                 = (Done (_, _), Fake.cluster0, _)) by reflexivity.
  split; [exact Hrun |].
  exact (mutateDeployment_idempotent _ _ _ _ _ _ _ Hrun).
Defined.

Lemma StartDebug_exits_on_error_witness :
  result_of (StartDebug Fake.show 60 (Second * 5) "rook-ceph" "rook-ceph-mon-a" "" Fake.cluster0)
  = Done tt
  ∧ result_of (Fake.debug "rook-ceph-mon-a" "" Fake.cluster0) = Done None
  ∧ ∃ pre e post,
      trace_of (StartDebug Fake.show 60 (Second * 5) "rook-ceph" "rook-ceph-mon-a" ""
                  Fake.cluster0)
      = pre ++ e :: post
      ∧ scaled_up_ok "rook-ceph" e ∧ Exists (observes_running "rook-ceph") post.
Proof.
  assert (Hres : result_of (StartDebug Fake.show 60 (Second * 5) "rook-ceph"
                              "rook-ceph-mon-a" "" Fake.cluster0) = Done tt)
    by (vm_compute; reflexivity).
  split; [exact Hres |].
  exact (proj2 (proj2 (proj2 (StartDebug_exits_on_error Fake.show 60 (Second * 5)
           "rook-ceph" "rook-ceph-mon-a" "" Fake.cluster0))) Hres).
Defined.
